(** * The adaptive collection loop of [DataCollectionAgent]

    A shallow embedding of the controller in
    [agent/data_collection_agent.py]: the request counters, the
    success-rate driven strategy adjustment, batch validation and storage,
    the quality scores, and the collection loop itself; and around the
    loop the default merge of [load_config], the lookup of the API key,
    the connectivity test and the schema documentation.

    Conventions of the embedding.
    - Python [int] is [Z].  Python [float] is a type [F] with the
      operations of the class [PyFloat]; the file gives two instances,
      IEEE binary64 ([float], what CPython computes with) and exact
      rationals ([Q], arithmetic without rounding).  Statements that do
      not depend on rounding are proved for every instance, values and
      the range of the delay multiplier in binary64, and the bounds of
      the quality score in exact arithmetic.
    - A Python [dict] with string keys is a [gmap string _]; a processed
      record is such a map, the data store is a list of them.
    - The agent object is the record [agent]; a method is a function from
      the agent (and what it reads from the outside world) to the new
      agent.  An exception that leaves a method is a [Raise] result.
    - The outside world (the HTTP exchange, the clock, the random jitter)
      is an explicit argument.  Logging changes nothing the controller
      reads and is left out.  The configuration is complete (every key the
      code indexes is there), and creating directories and writing files
      return normally; of [save_raw_data] the model keeps the one step that
      can raise on the payload.  [time.sleep] is a parameter: what the
      platform does with a duration, return or raise.  [load_config] and
      [_load_api_credentials] are modelled on the parsed file itself, a
      JSON value of any shape. *)

From Stdlib Require Import ZArith QArith Qround Lqa Floats.
From stdpp Require Import gmap strings list.

Set Warnings "-register-all".
Local Open Scope Z_scope.

(** ** Exceptions *)

(** The exceptions the modelled code can raise: on a JSON value, and from
    [time.sleep] on a delay. *)
Inductive exn :=
| AttributeError | TypeError | KeyError | IndexError
| ValueError | OverflowError.

Inductive result (A : Type) :=
| Ok (a : A)
| Raise (e : exn).
Arguments Ok {A} a.
Arguments Raise {A} e.

#[export] Instance result_ret : MRet result := @Ok.
#[export] Instance result_bind : MBind result := λ A B f m,
  match m with
  | Ok a => f a
  | Raise e => Raise e
  end.

(** ** Numbers *)

(** The arithmetic the controller does on floats. [f_of_Z n] is
    [float(n)]; the comparisons are Python's [<], [<=] and [==]. *)
Class PyFloat (F : Type) := {
  f_of_Z : Z → F;
  fadd : F → F → F;
  fmul : F → F → F;
  fdiv : F → F → F;
  flt : F → F → bool;
  fle : F → F → bool;
  feq : F → F → bool;
}.

(** [x <= y] excludes [y < x]: all the order theory the case analysis of
    [adjust_strategy] needs. *)
Class PyFloatOrder (F : Type) `{PyFloat F} := {
  fle_not_flt : ∀ x y : F, fle x y = true → flt y x = false;
}.

(** [float(n)] in binary64, for [|n| < 2^63]: the nearest float, ties to
    even. *)
Definition float_of_Z (z : Z) : float :=
  if z <? 0 then PrimFloat.opp (PrimFloat.of_uint63 (Uint63.of_Z (- z)))
  else PrimFloat.of_uint63 (Uint63.of_Z z).

#[export] Instance binary64 : PyFloat float := {
  f_of_Z := float_of_Z;
  fadd := PrimFloat.add;
  fmul := PrimFloat.mul;
  fdiv := PrimFloat.div;
  flt := PrimFloat.ltb;
  fle := PrimFloat.leb;
  feq := PrimFloat.eqb;
}.

#[export] Instance exact : PyFloat Q := {
  f_of_Z := inject_Z;
  fadd := Qplus;
  fmul := Qmult;
  fdiv := Qdiv;
  flt := fun x y => negb (Qle_bool y x);
  fle := Qle_bool;
  feq := Qeq_bool;
}.

Section Agent.
Context {F : Type} `{PyFloat F}.

(** The decimal literal [n/d]: the float nearest to the quotient. *)
Definition lit (n d : Z) : F := fdiv (f_of_Z n) (f_of_Z d).

(** [a / b] on two Python ints: [float(a) / float(b)], which is what
    CPython computes when both are below [2^53]. *)
Definition truediv (a b : Z) : F := fdiv (f_of_Z a) (f_of_Z b).

(** ** Values *)

(** What [response.json()] can return, and what a record field can hold. *)
Inductive pyval :=
| VNone
| VBool (b : bool)
| VInt (z : Z)
| VFloat (x : F)
| VStr (s : string)
| VList (l : list pyval)
| VDict (d : gmap string pyval).

(** [bool(v)]: [None], [False], zero, and the empty string, list and dict
    are false. *)
Definition truthy (v : pyval) : bool :=
  match v with
  | VNone => false
  | VBool b => b
  | VInt z => negb (z =? 0)
  | VFloat x => negb (feq x (f_of_Z 0))
  | VStr s => negb (String.eqb s "")
  | VList l => match l with [] => false | _ :: _ => true end
  | VDict d => negb (bool_decide (d = ∅))
  end.

(** ** Configuration, counters, agent *)

Record agent_settings_t := {
  agent_base_delay : F;
  max_requests : Z;
  timeout : F;
  retry_attempts : Z;
}.

Record api_settings_t := {
  primary_api : option string;
  fallback_apis : option (list string);
  rate_limit_per_minute : Z;
  burst_limit : Z;
}.

Record data_quality_t := {
  min_completeness : F;
  min_accuracy : F;
  required_fields : list string;
  max_age_hours : F;
}.

(** The configuration after [load_config] has merged the defaults.
    [base_delay] is the key of that name at the top level of the file,
    next to the three sections; [agent_base_delay] is the one inside
    [agent_settings]. *)
Record config_t := {
  base_delay : option F;
  agent_settings : agent_settings_t;
  api_settings : api_settings_t;
  data_quality : data_quality_t;
}.

Record stats := {
  total_requests : Z;
  successful_requests : Z;
  failed_requests : Z;
}.

Record agent := {
  config : config_t;
  data_store : list (gmap string pyval);
  collection_stats : stats;
  delay_multiplier : F;
  current_api : string;
}.

(** [__init__] *)
Definition init (cfg : config_t) : agent := {|
  config := cfg;
  data_store := [];
  collection_stats :=
    {| total_requests := 0; successful_requests := 0; failed_requests := 0 |};
  delay_multiplier := f_of_Z 1;
  current_api := default "default"%string (primary_api (api_settings cfg));
|}.

Definition set_stats (a : agent) (s : stats) : agent :=
  {| config := config a; data_store := data_store a; collection_stats := s;
     delay_multiplier := delay_multiplier a; current_api := current_api a |}.

Definition set_delay_multiplier (a : agent) (m : F) : agent :=
  {| config := config a; data_store := data_store a;
     collection_stats := collection_stats a;
     delay_multiplier := m; current_api := current_api a |}.

Definition set_current_api (a : agent) (u : string) : agent :=
  {| config := config a; data_store := data_store a;
     collection_stats := collection_stats a;
     delay_multiplier := delay_multiplier a; current_api := u |}.

Definition set_data_store (a : agent) (l : list (gmap string pyval)) : agent :=
  {| config := config a; data_store := l;
     collection_stats := collection_stats a;
     delay_multiplier := delay_multiplier a; current_api := current_api a |}.

(** ** Success rate and strategy *)

Definition collection_complete (a : agent) : bool :=
  max_requests (agent_settings (config a)) <=? total_requests (collection_stats a).

Definition get_success_rate (a : agent) : F :=
  let total := total_requests (collection_stats a) in
  if total =? 0 then f_of_Z 1
  else truediv (successful_requests (collection_stats a)) total.

Definition try_fallback_api (a : agent) : agent :=
  let fallback := default [] (fallback_apis (api_settings (config a))) in
  match fallback with
  | [] => a
  | first :: _ =>
      if negb (String.eqb (current_api a) first) then set_current_api a first
      else a
  end.

Definition adjust_strategy (a : agent) : agent :=
  let success_rate := get_success_rate a in
  if flt success_rate (lit 5 10) then
    try_fallback_api (set_delay_multiplier a (fmul (delay_multiplier a) (f_of_Z 2)))
  else if flt (lit 9 10) success_rate then
    set_delay_multiplier a (fmul (delay_multiplier a) (lit 8 10))
  else a.

(** ** One fetch cycle *)

(** What the exception handlers of [make_api_request] tell apart. *)
Inductive net_error :=
| GaiError | SocketTimeout | RequestsTimeout
| ConnectionError | RequestException | OtherException.

(** What the exchange with the server came to: the connection or the
    request raised, or a response arrived with a status code and a body;
    [json] is what [response.json()] returns, [None] when it raises. *)
Inductive fetch_outcome :=
| Failed (e : net_error)
| Responded (status_code : Z) (json : option pyval).

(** [len(v)], [None] where Python raises [TypeError]. *)
Definition py_len (v : pyval) : option nat :=
  match v with
  | VStr s => Some (String.length s)
  | VList l => Some (length l)
  | VDict d => Some (size d)
  | _ => None
  end.

(** [items[0]], for an [items] that is true. *)
Definition py_first (items : pyval) : result pyval :=
  match items with
  | VList (x :: _) => Ok x
  | VList [] => Raise IndexError
  | VStr (String c _) => Ok (VStr (String c ""))
  | VStr EmptyString => Raise IndexError
  | VDict _ => Raise KeyError
  | _ => Raise TypeError
  end.

(** [save_raw_data], as far as it can raise on the payload.  It calls
    [generate_comprehensive_metadata], which for a dict with an [items]
    entry takes [len(items)] and then [items[0] if items else {}]: on a
    non-empty JSON object, whose keys are strings, [items[0]] is a
    [KeyError].  The result is the sample item. *)
Definition save_raw_data (raw_data : gmap string pyval) : result pyval :=
  match raw_data !! "items"%string with
  | Some items =>
      match py_len items with
      | None => Raise TypeError
      | Some _ => if truthy items then py_first items else Ok (VDict ∅)
      end
  | None => Ok (VDict raw_data)
  end.

Definition count_total (a : agent) : agent :=
  let s := collection_stats a in
  set_stats a {| total_requests := total_requests s + 1;
                 successful_requests := successful_requests s;
                 failed_requests := failed_requests s |}.

Definition count_successful (a : agent) : agent :=
  let s := collection_stats a in
  set_stats a {| total_requests := total_requests s;
                 successful_requests := successful_requests s + 1;
                 failed_requests := failed_requests s |}.

Definition count_failed (a : agent) : agent :=
  let s := collection_stats a in
  set_stats a {| total_requests := total_requests s;
                 successful_requests := successful_requests s;
                 failed_requests := failed_requests s + 1 |}.

(** [make_api_request].  The request is counted before the [try].  On
    status 200 the success is counted first; [response.json()],
    [len(raw_data.get('items', []))] and [save_raw_data] come after it,
    still inside the [try], so when one of them raises a handler counts a
    failure as well and the method returns [None].  The method returns
    [raw_data] only after [raw_data.get] has worked, so what it returns is
    a dict. *)
Definition make_api_request (o : fetch_outcome) (a : agent)
  : agent * option (gmap string pyval) :=
  let a := count_total a in
  match o with
  | Failed _ => (count_failed a, None)
  | Responded status_code json =>
      if status_code =? 200 then
        let a := count_successful a in
        match json with
        | None => (count_failed a, None)
        | Some (VDict raw_data) =>
            match py_len (default (VList []) (raw_data !! "items"%string)) with
            | Some _ =>
                match save_raw_data raw_data with
                | Ok _ => (a, Some raw_data)
                | Raise _ => (count_failed a, None)
                end
            | None => (count_failed a, None)
            end
        | Some _ => (count_failed a, None)
        end
      else if status_code =? 403 then (count_failed a, None)
      else if status_code =? 429 then (count_failed a, None)
      else if status_code =? 401 then (count_failed a, None)
      else (count_failed a, None)
  end.

(** The record [process_data] builds from one raw item; [now] is
    [datetime.now().isoformat()]. *)
Definition process_item (now : string) (item : gmap string pyval)
  : gmap string pyval :=
  {[ "name"%string := default (VStr "") (item !! "name"%string);
     "elixir_cost"%string := default (VInt 0) (item !! "elixirCost"%string);
     "type"%string := default (VStr "") (item !! "type"%string);
     "rarity"%string := default (VStr "") (item !! "rarity"%string);
     "collected_at"%string := VStr now ]}.

(** The loop of [process_data]: [item.get] raises [AttributeError] on an
    item that is not a dict.  [stamp i] is the clock reading for the
    [i]-th item. *)
Fixpoint process_items (stamp : nat → string) (i : nat) (items : list pyval)
  : result (list (gmap string pyval)) :=
  match items with
  | [] => Ok []
  | VDict item :: rest =>
      processed ← process_items stamp (S i) rest;
      Ok (process_item (stamp i) item :: processed)
  | _ :: _ => Raise AttributeError
  end.

(** What [for item in v] goes through.  A string yields its characters
    and a dict its keys, strings in both cases. *)
Definition py_iter (v : pyval) : option (list pyval) :=
  match v with
  | VList l => Some l
  | VStr s => Some ((λ c, VStr (String c "")) <$> String.list_ascii_of_string s)
  | VDict d => Some ((λ kv, VStr kv.1) <$> map_to_list d)
  | _ => None
  end.

Definition process_data (stamp : nat → string) (raw_data : gmap string pyval)
  : result (option (list (gmap string pyval))) :=
  if bool_decide (raw_data = ∅) then Ok None
  else match raw_data !! "items"%string with
       | None => Ok None
       | Some items =>
           match py_iter items with
           | None => Raise TypeError
           | Some l => processed ← process_items stamp 0 l; Ok (Some processed)
           end
       end.

(** [field not in item or not item[field]], negated. *)
Definition field_ok (item : gmap string pyval) (field : string) : bool :=
  match item !! field with
  | None => false
  | Some v => truthy v
  end.

Definition validate_data (a : agent) (data : option (list (gmap string pyval)))
  : bool :=
  match data with
  | None => false
  | Some [] => false
  | Some items =>
      let required_fields := required_fields (data_quality (config a)) in
      forallb (λ item, forallb (field_ok item) required_fields) items
  end.

Definition store_data (a : agent) (data : list (gmap string pyval)) : agent :=
  set_data_store a (data_store a ++ data).

(** [if self.validate_data(processed_data): self.store_data(processed_data)],
    the validation and storage step of the loop. *)
Definition validate_and_store (a : agent)
    (processed_data : option (list (gmap string pyval))) : agent :=
  if validate_data a processed_data
  then store_data a (default [] processed_data)
  else a.

(** [respectful_delay]: the duration handed to [time.sleep]. *)
Definition respectful_delay (a : agent) (jitter : F) : F :=
  let base_delay := default (f_of_Z 1) (base_delay (config a)) in
  let delay := fmul base_delay (delay_multiplier a) in
  fmul delay jitter.

(** ** Quality scores *)

(** [datetime.fromisoformat] followed by the subtraction from
    [datetime.now()]: the instant a timestamp denotes, in microseconds on
    the clock that [datetime.now()] reads, and [None] when either step
    raises. *)
Variable fromisoformat : string → option Z.

Definition check_completeness (a : agent) : F :=
  match data_store a with
  | [] => f_of_Z 0
  | _ :: _ =>
      let total_items := Z.of_nat (length (data_store a)) in
      let required_fields := required_fields (data_quality (config a)) in
      let complete_items :=
        fold_left (λ n item,
                     if forallb (field_ok item) required_fields then n + 1 else n)
                  (data_store a) 0 in
      if 0 <? total_items then truediv complete_items total_items else f_of_Z 0
  end.

Definition check_accuracy (a : agent) : F := lit 9 10.

Definition check_consistency (a : agent) : F := lit 85 100.

(** The body of the loop of [check_timeliness] on one item: whether it
    adds one to [fresh_items].  A [collected_at] that is not a string makes
    [fromisoformat] raise, which the bare [except] swallows.
    [total_seconds()] is the difference in microseconds over [10**6]. *)
Definition is_fresh (current_time : Z) (max_age_hours : F)
    (item : gmap string pyval) : bool :=
  match item !! "collected_at"%string with
  | Some (VStr s) =>
      match fromisoformat s with
      | Some collected_time =>
          let age_hours :=
            fdiv (truediv (current_time - collected_time) 1000000) (f_of_Z 3600) in
          fle age_hours max_age_hours
      | None => false
      end
  | Some _ => false
  | None => false
  end.

Definition check_timeliness (current_time : Z) (a : agent) : F :=
  match data_store a with
  | [] => f_of_Z 0
  | _ :: _ =>
      let max_age_hours := max_age_hours (data_quality (config a)) in
      let fresh_items :=
        fold_left (λ n item, if is_fresh current_time max_age_hours item
                             then n + 1 else n)
                  (data_store a) 0 in
      truediv fresh_items (Z.of_nat (length (data_store a)))
  end.

(** [sum(quality_metrics.values()) / len(quality_metrics)]: the four
    values are added to the integer 0 in the order the dict lists them,
    each addition rounded, which is the [sum] of CPython up to 3.11; from
    3.12 on [sum] carries a compensation term for floats, which this
    definition does not follow. *)
Definition assess_data_quality (current_time : Z) (a : agent) : F :=
  match data_store a with
  | [] => f_of_Z 0
  | _ :: _ =>
      let quality_metrics :=
        [check_completeness a; check_accuracy a; check_consistency a;
         check_timeliness current_time a] in
      fdiv (fold_left fadd quality_metrics (f_of_Z 0))
           (f_of_Z (Z.of_nat (length quality_metrics)))
  end.

(** ** The collection loop *)

(** What one iteration reads from outside: the clock at the quality
    assessment, the outcome of the exchange, the clock at each processed
    item, and the jitter [random.uniform(0.5, 1.5)] returns. *)
Record world := {
  clock : Z;
  fetch : fetch_outcome;
  stamp : nat → string;
  jitter : F;
}.

(** [time.sleep]: what the platform does with the duration it is handed,
    return or raise.  CPython raises [ValueError] on a NaN and on a
    negative duration and [OverflowError] on one that its clock cannot
    hold; nothing in the agent catches either. *)
Variable time_sleep : F → result unit.

(** The body of the [while] loop of [collect_data]: the last step is
    [self.respectful_delay()], which computes the delay and hands it to
    [time.sleep]; the second component is the time slept. *)
Definition iteration (w : world) (a : agent) : result (agent * F) :=
  let quality_score := assess_data_quality (clock w) a in
  let a := if flt (get_success_rate a) (lit 8 10) then adjust_strategy a else a in
  let '(a, data) := make_api_request (fetch w) a in
  a ← match data with
      | Some raw_data =>
          if truthy (VDict raw_data) then
            processed_data ← process_data (stamp w) raw_data;
            Ok (validate_and_store a processed_data)
          else Ok a
      | None => Ok a
      end;
  let delay := respectful_delay a (jitter w) in
  _ ← time_sleep delay;
  Ok (a, delay).

(** [collect_data], with the worlds of the successive iterations in [env]
    and the durations slept so far in [slept].  An exception that leaves an
    iteration leaves the loop.  [None] is a run that the fuel cut short. *)
Fixpoint collect_data (fuel : nat) (env : nat → world) (i : nat)
    (a : agent) (slept : list F) : option (result (agent * list F)) :=
  match fuel with
  | O => None
  | S fuel =>
      if collection_complete a then Some (Ok (a, slept))
      else match iteration (env i) a with
           | Ok (a, d) => collect_data fuel env (S i) a (slept ++ [d])
           | Raise e => Some (Raise e)
           end
  end.

End Agent.

Arguments pyval F : clear implicits.
Arguments agent_settings_t F : clear implicits.
Arguments data_quality_t F : clear implicits.
Arguments config_t F : clear implicits.
Arguments agent F : clear implicits.
Arguments fetch_outcome F : clear implicits.
Arguments world F : clear implicits.

(** ** Notions of the specification *)

Section Specification.
Context {F : Type} `{PyFloat F}.

(** The counters add up. *)
Definition balanced (s : stats) : Prop :=
  successful_requests s + failed_requests s = total_requests s.

(** The outcomes on which [make_api_request] raises after it has counted
    the success: status 200 with a body that is not JSON, or not an
    object, or whose [items] has no length or is a non-empty object. *)
Definition counted_twice (o : fetch_outcome F) : bool :=
  match o with
  | Failed _ => false
  | Responded status_code json =>
      (status_code =? 200) &&
      negb match json with
           | Some (VDict raw_data) =>
               match py_len (default (VList []) (raw_data !! "items"%string)) with
               | Some _ =>
                   match save_raw_data raw_data with
                   | Ok _ => true
                   | Raise _ => false
                   end
               | None => false
               end
           | _ => false
           end
  end.

Definition is_object (v : pyval F) : bool :=
  match v with
  | VDict _ => true
  | _ => false
  end.


(** An empty value: [None] and the empty string, list and dict. *)
Definition empty_value (v : pyval F) : bool :=
  match v with
  | VNone => true
  | VStr s => String.eqb s ""
  | VList l => bool_decide (l = [])
  | VDict d => bool_decide (d = ∅)
  | _ => false
  end.

(** [adjust_strategy] called once for each entry of [history], the
    counters standing at that entry when the call is made. *)
Fixpoint adjust_run (history : list stats) (a : agent F) : agent F :=
  match history with
  | [] => a
  | s :: history => adjust_run history (adjust_strategy (set_stats a s))
  end.

(** Counters after one request that failed, and after one that
    succeeded. *)
Definition one_failed : stats :=
  {| total_requests := 1; successful_requests := 0; failed_requests := 1 |}.

Definition one_successful : stats :=
  {| total_requests := 1; successful_requests := 1; failed_requests := 0 |}.

(** A record with every required field present and true. *)
Definition complete (fields : list string) (item : gmap string (pyval F)) : Prop :=
  ∀ field, field ∈ fields → ∃ v, item !! field = Some v ∧ truthy v = true.

(** A record whose [collected_at] is a timestamp that parses and whose
    age, in hours, is at most [max_age]. *)
Definition timely (fromisoformat : string → option Z) (current_time : Z)
    (max_age : F) (item : gmap string (pyval F)) : Prop :=
  ∃ s collected_time,
    item !! "collected_at"%string = Some (VStr s) ∧
    fromisoformat s = Some collected_time ∧
    fle (fdiv (truediv (current_time - collected_time) 1000000) (f_of_Z 3600))
        max_age = true.

End Specification.

(** ** The thresholds of the strategy *)

(** What the guard of [collect_data] and the cases of [adjust_strategy]
    need of the order when one follows the other: a rate below 0.5 is
    below 0.8, and a rate below 0.8 is not above 0.9. *)
Class PyFloatThresholds (F : Type) `{PyFloat F} := {
  below_half_below_08 :
    ∀ x : F, flt x (lit 5 10) = true → flt x (lit 8 10) = true;
  below_08_not_above_09 :
    ∀ x : F, flt x (lit 8 10) = true → flt (lit 9 10) x = false;
}.

(** ** Loading the configuration *)

(** [load_config] and [_load_api_credentials] work on the value
    [json.load] returns, before anything is known of its shape; here the
    configuration is a JSON object, a [gmap string pyval]. *)

Section Configuration.
Context {F : Type} `{PyFloat F}.

(** [key in v] for a string [key]: a key of a dict, an element of a list,
    a substring of a string, and a [TypeError] on any other value. *)
Definition py_contains (key : string) (v : pyval F) : result bool :=
  match v with
  | VDict d => Ok (bool_decide (is_Some (d !! key)))
  | VList l =>
      Ok (existsb (λ x, match x with VStr s => String.eqb key s | _ => false end) l)
  | VStr s => Ok (bool_decide (is_Some (String.index 0 key s)))
  | _ => Raise TypeError
  end.

(** [v[key] = x] for a string [key]: only a dict takes it. *)
Definition py_setitem (v : pyval F) (key : string) (x : pyval F)
  : result (pyval F) :=
  match v with
  | VDict d => Ok (VDict (<[key := x]> d))
  | _ => Raise TypeError
  end.

(** [v[key]] for a string [key]. *)
Definition py_getitem (v : pyval F) (key : string) : result (pyval F) :=
  match v with
  | VDict d =>
      match d !! key with
      | Some x => Ok x
      | None => Raise KeyError
      end
  | _ => Raise TypeError
  end.

Definition default_config : list (string * list (string * pyval F)) :=
  [ ("agent_settings",
     [ ("base_delay", VFloat (f_of_Z 1)); ("max_requests", VInt 100);
       ("timeout", VInt 10); ("retry_attempts", VInt 3) ]);
    ("api_settings",
     [ ("rate_limit_per_minute", VInt 30); ("burst_limit", VInt 10) ]);
    ("data_quality",
     [ ("min_completeness", VFloat (lit 8 10));
       ("min_accuracy", VFloat (lit 9 10)) ]) ]%string.

(** The inner loop of [load_config], on [config[section]]:
    [if key not in config[section]: config[section][key] = default_value]. *)
Fixpoint merge_defaults (defaults : list (string * pyval F)) (section : pyval F)
  : result (pyval F) :=
  match defaults with
  | [] => Ok section
  | (key, default_value) :: defaults =>
      section ← (py_contains key section ≫= λ present : bool,
                   if present then Ok section
                   else py_setitem section key default_value);
      merge_defaults defaults section
  end.

(** The outer loop, on the dict that [json.load] returned:
    [if section not in config: config[section] = {}], then the inner
    loop. *)
Fixpoint merge_sections (sections : list (string * list (string * pyval F)))
    (config : gmap string (pyval F)) : result (gmap string (pyval F)) :=
  match sections with
  | [] => Ok config
  | (section, defaults) :: sections =>
      let config :=
        if bool_decide (is_Some (config !! section)) then config
        else <[section := VDict ∅]> config in
      merged ← merge_defaults defaults (default (VDict ∅) (config !! section));
      merge_sections sections (<[section := merged]> config)
  end.

(** [load_config], from the value [json.load] returns on; the handlers log
    and raise again.  On a value that is not a dict [section not in config],
    [config[section] = {}] and [config[section]] all end in a [TypeError],
    whichever comes first. *)
Definition load_config (parsed : pyval F) : result (gmap string (pyval F)) :=
  match parsed with
  | VDict config => merge_sections default_config config
  | _ => Raise TypeError
  end.

(** [_load_api_credentials].  [env_key] is what the search of the [.env]
    files comes to: the key found there, and [None] when there is none or
    the search raises.  [.get] on a section that is not a dict and
    [.startswith] on a value that is not a string raise [AttributeError],
    which the handler turns into [None]. *)
Definition _load_api_credentials (config : gmap string (pyval F))
    (env_key : option string) : option string :=
  match default (VDict ∅) (config !! "api_settings"%string) with
  | VDict api_settings =>
      let api_key := default (VStr "") (api_settings !! "primary_api"%string) in
      if truthy api_key then
        match api_key with
        | VStr s => if String.prefix "eyJ" s then Some s else env_key
        | _ => None
        end
      else env_key
  | _ => None
  end.

End Configuration.

(** ** The connectivity test and the schema documentation *)

Section Documentation.
Context {F : Type} `{PyFloat F}.

(** [test_api_connectivity].  [connected] is whether
    [socket.create_connection] returns, [api_key] is [self.api_key], and
    [o] is what the request comes to; an exception at any step makes the
    answer [False]. *)
Definition test_api_connectivity (connected : bool) (api_key : option string)
    (o : fetch_outcome F) : bool :=
  if negb connected then false
  else
    match api_key with
    | None | Some EmptyString => false
    | Some _ =>
        match o with
        | Failed _ => false
        | Responded status_code json =>
            if status_code =? 200 then
              match json with
              | Some (VDict data) =>
                  match py_len (default (VList []) (data !! "items"%string)) with
                  | Some _ => true
                  | None => false
                  end
              | _ => false
              end
            else if status_code =? 403 then false
            else false
        end
    end.

(** [type(v).__name__] *)
Definition py_type_name (v : pyval F) : string :=
  match v with
  | VNone => "NoneType"
  | VBool _ => "bool"
  | VInt _ => "int"
  | VFloat _ => "float"
  | VStr _ => "str"
  | VList _ => "list"
  | VDict _ => "dict"
  end.

(** One entry of the raw schema:
    [{'type': ..., 'description': ..., 'required': ...}]. *)
Definition schema_field (type description : string) (required : bool) : pyval F :=
  VDict {[ "type"%string := VStr type; "description"%string := VStr description;
           "required"%string := VBool required ]}.

Definition generate_data_schema_docs (a : agent F) : pyval F :=
  match data_store a with
  | [] => VDict {[ "note"%string := VStr "No data collected yet" ]}
  | sample_item :: _ =>
      VDict {[
        "raw_data_schema"%string :=
          VDict {[
            "description"%string := VStr "Schema of raw data as received from API";
            "fields"%string :=
              VDict {[
                "name"%string := schema_field "string" "Card name" true;
                "id"%string :=
                  schema_field "integer" "Unique card identifier" true;
                "elixirCost"%string :=
                  schema_field "integer" "Elixir cost to play card" true;
                "maxLevel"%string :=
                  schema_field "integer" "Maximum upgrade level" false;
                "rarity"%string :=
                  schema_field "string"
                    "Card rarity (common, rare, epic, legendary)" true;
                "iconUrls"%string :=
                  schema_field "object" "URLs for card images" false ]} ]};
        "processed_data_schema"%string :=
          VDict {[
            "description"%string := VStr "Schema of processed, cleaned data";
            "fields"%string :=
              VDict (if truthy (VDict sample_item)
                     then map_imap
                            (λ field value,
                               Some (VDict {[
                                 "type"%string := VStr (py_type_name value);
                                 "sample_value"%string := value;
                                 "description"%string :=
                                   VStr ("Processed field: " ++ field) ]}))
                            sample_item
                     else ∅) ]};
        "data_quality_fields"%string :=
          VDict {[
            "collected_at"%string :=
              VDict {[ "type"%string := VStr "datetime";
                       "description"%string :=
                         VStr "Timestamp when data was collected" ]};
            "data_quality_score"%string :=
              VDict {[ "type"%string := VStr "float";
                       "description"%string :=
                         VStr "Overall quality score (0-1)" ]} ]} ]}
  end.

(** [docs['data_schema'][schema]['fields']].  With the raw schema for
    [schema] this is the argument [save_markdown_docs] evaluates for
    [_format_schema_md], [docs['data_schema']] being what
    [generate_data_schema_docs] returned. *)
Definition schema_fields (data_schema : pyval F) (schema : string)
  : result (pyval F) :=
  schema ← py_getitem data_schema schema; py_getitem schema "fields".

End Documentation.

(** ** Notions for the loop and the configuration *)

(** Each outcome counter is between 0 and the number of requests. *)
Definition within_total (s : stats) : Prop :=
  0 ≤ successful_requests s ≤ total_requests s ∧
  0 ≤ failed_requests s ≤ total_requests s.

(** The sections [load_config] has defaults for. *)
Definition default_sections : list string :=
  ["agent_settings"; "api_settings"; "data_quality"]%string.

(** The first entry for [key] in an association list. *)
Fixpoint lookup_default {A} (key : string) (l : list (string * A)) : option A :=
  match l with
  | [] => None
  | (k, x) :: l => if String.eqb key k then Some x else lookup_default key l
  end.

Section Notions.
Context {F : Type} `{PyFloat F}.

(** The iterations among [i], ..., [i + n - 1] whose response is counted
    twice. *)
Definition twice_counted (env : nat → world F) (i n : nat) : list nat :=
  filter (λ j, counted_twice (fetch (env j)) = true) (seq i n).

(** A response on which [process_data] raises: status 200 and an object
    whose [items] is a non-empty string, or a list with an element that is
    not an object. *)
Definition unprocessable (o : fetch_outcome F) : bool :=
  match o with
  | Responded status_code (Some (VDict raw_data)) =>
      (status_code =? 200) &&
      match raw_data !! "items"%string with
      | Some (VStr s) => negb (String.eqb s "")
      | Some (VList l) => negb (forallb is_object l)
      | _ => false
      end
  | _ => false
  end.

(** [config[section][key]], where the section is an object that has the
    key. *)
Definition setting (config : gmap string (pyval F)) (section key : string)
  : option (pyval F) :=
  match config !! section with
  | Some (VDict d) => d !! key
  | _ => None
  end.

(** The default [load_config] has for a setting, if it has one. *)
Definition default_setting (section key : string) : option (pyval F) :=
  defaults ← lookup_default section default_config; lookup_default key defaults.

(** A number, a boolean or [null]. *)
Definition is_scalar (v : pyval F) : bool :=
  match v with
  | VNone | VBool _ | VInt _ | VFloat _ => true
  | _ => false
  end.

End Notions.

(** ** Bounds on binary64 values

    What the range of the quality score is stated with: the values of the
    specification of IEEE arithmetic, [spec_float], against integers. *)

(** The mantissa a record of a right shift stands for, rounded up: the
    next integer unless no bit was shifted out. *)
Definition shr_upper (s : shr_record) : Z :=
  if shr_r s || shr_s s then shr_m s + 1 else shr_m s.

(** [x] is a zero, or a positive finite [m * 2^e] with [e <= 0] that is at
    most the integer [B]. *)
Definition SFbounded (B : Z) (x : spec_float) : Prop :=
  match x with
  | S754_zero _ => True
  | S754_finite false m e => e <= 0 ∧ Z.pos m <= B * 2 ^ (- e)
  | _ => False
  end.

(** [x] is the integer [k], as [+0] or as a positive finite [m * 2^e] with
    [e <= 0]. *)
Definition SFinteger (k : Z) (x : spec_float) : Prop :=
  match x with
  | S754_zero false => k = 0
  | S754_finite false m e => e <= 0 ∧ Z.pos m = k * 2 ^ (- e)
  | _ => False
  end.

(** ** Sample data *)

Section Samples.
Context {F : Type} `{PyFloat F}.

Definition sample_config (max : Z) : config_t F := {|
  base_delay := None;
  agent_settings :=
    {| agent_base_delay := f_of_Z 5; max_requests := max;
       timeout := f_of_Z 10; retry_attempts := 3 |};
  api_settings :=
    {| primary_api := Some "https://api.clashroyale.com/v1"%string;
       fallback_apis := Some ["https://proxy.royaleapi.dev/v1"%string];
       rate_limit_per_minute := 30; burst_limit := 10 |};
  data_quality :=
    {| min_completeness := lit 8 10; min_accuracy := lit 9 10;
       required_fields := ["name"%string; "elixir_cost"%string];
       max_age_hours := f_of_Z 24 |};
|}.

Definition knight : gmap string (pyval F) :=
  {[ "name"%string := VStr "Knight"; "elixirCost"%string := VInt 3;
     "type"%string := VStr "troop"; "rarity"%string := VStr "common" ]}.

(** A card that costs nothing. *)
Definition free_card : gmap string (pyval F) :=
  {[ "name"%string := VStr "Heal Spirit"; "elixirCost"%string := VInt 0;
     "type"%string := VStr "troop"; "rarity"%string := VStr "rare" ]}.

(** A card whose cost the server leaves out. *)
Definition mirror : gmap string (pyval F) :=
  {[ "name"%string := VStr "Mirror";
     "type"%string := VStr "spell"; "rarity"%string := VStr "epic" ]}.

(** The body [{"items": [...]}]. *)
Definition cards (l : list (pyval F)) : pyval F :=
  VDict {[ "items"%string := VList l ]}.

(** A clock with two readable instants, one hour apart. *)
Definition sample_fromisoformat (s : string) : option Z :=
  if String.eqb s "2024-01-01T00:00:00" then Some 0
  else if String.eqb s "2024-01-01T01:00:00" then Some 3600000000
  else None.

(** Twenty-five hours after the first instant. *)
Definition sample_clock : Z := 90000000000.

(** A [time.sleep] that makes CPython's checks on its argument, in their
    order, and then returns: a NaN is refused with [ValueError], a
    duration that does not fit in 63 bits of nanoseconds with
    [OverflowError], and a negative one with [ValueError].  What the
    operating system does with a duration that passes the checks is not
    part of it. *)
Definition sample_sleep (secs : F) : result unit :=
  let nanoseconds := fmul secs (f_of_Z 1000000000) in
  let limit := fmul (f_of_Z (2 ^ 32)) (f_of_Z (2 ^ 31)) in
  if negb (feq secs secs) then Raise ValueError
  else if flt nanoseconds (fmul (f_of_Z (-1)) limit) || fle limit nanoseconds
  then Raise OverflowError
  else if flt secs (f_of_Z 0) then Raise ValueError
  else Ok ().

Definition sample_world (o : fetch_outcome F) : world F := {|
  clock := sample_clock;
  fetch := o;
  stamp := λ _, "2024-01-01T01:00:00"%string;
  jitter := f_of_Z 1;
|}.

(** Processed records: collected 24 hours before [sample_clock]; the same
    with a cost of 0; collected 25 hours before; with a timestamp that
    does not parse; with one that is not a string; and without one. *)
Definition knight_record : gmap string (pyval F) :=
  process_item "2024-01-01T01:00:00" knight.

Definition mirror_record : gmap string (pyval F) :=
  process_item "2024-01-01T01:00:00" mirror.

Definition free_record : gmap string (pyval F) :=
  process_item "2024-01-01T01:00:00" free_card.

Definition stale_record : gmap string (pyval F) :=
  process_item "2024-01-01T00:00:00" knight.

Definition undated_record : gmap string (pyval F) :=
  process_item "yesterday" knight.

Definition misdated_record : gmap string (pyval F) :=
  <["collected_at"%string := VInt 1704067200]> knight_record.

Definition dateless_record : gmap string (pyval F) :=
  delete "collected_at"%string knight_record.

Definition sample_agent (max : Z) (store : list (gmap string (pyval F)))
    (s : stats) : agent F :=
  set_stats (set_data_store (init (sample_config max)) store) s.

Definition seven_of_ten : stats :=
  {| total_requests := 10; successful_requests := 7; failed_requests := 3 |}.

Definition no_requests : stats :=
  {| total_requests := 0; successful_requests := 0; failed_requests := 0 |}.

End Samples.

Section MoreSamples.
Context {F : Type} `{PyFloat F}.

(** A response that cannot be read, then one card, then refusals. *)
Definition mixed_env : nat → world F := λ i,
  sample_world match i with
               | O => Responded 200 None
               | S O => Responded 200 (Some (cards [VDict knight]))
               | _ => Responded 403 None
               end.

(** The server is never reached. *)
Definition failing_env : nat → world F := λ _,
  sample_world (Failed ConnectionError).

(** Two complete cards at every request. *)
Definition knight_env : nat → world F := λ _,
  sample_world (Responded 200 (Some (cards [VDict knight; VDict knight]))).

(** The same responses, read at another time. *)
Definition later_env : nat → world F := λ i,
  {| clock := sample_clock + 1; fetch := fetch (knight_env i);
     stamp := stamp (knight_env i); jitter := jitter (knight_env i) |}.

(** The sample configuration with a negative top-level [base_delay]. *)
Definition negative_delay_config (max : Z) : config_t F := {|
  base_delay := Some (f_of_Z (-1));
  agent_settings := agent_settings (sample_config max);
  api_settings := api_settings (sample_config max);
  data_quality := data_quality (sample_config max);
|}.

(** A configuration file that sets one limit and the required fields. *)
Definition sample_file : gmap string (pyval F) :=
  {[ "agent_settings"%string := VDict {[ "max_requests"%string := VInt 5 ]};
     "data_quality"%string :=
       VDict {[ "required_fields"%string := VList [VStr "name"] ]} ]}.

(** One that holds a token where the endpoint goes. *)
Definition token_file : gmap string (pyval F) :=
  {[ "api_settings"%string :=
       VDict {[ "primary_api"%string := VStr "eyJ0eXAiOiJKV1Qi" ]} ]}.

(** One whose [api_settings] is [null]. *)
Definition null_section_file : gmap string (pyval F) :=
  {[ "api_settings"%string := VNone ]}.

End MoreSamples.

(** * Properties *)

(** ** The order law in the two instances *)

Lemma SFleb_not_SFltb (x y : spec_float) : SFleb x y = true → SFltb y x = false.
Proof.
  unfold SFleb, SFltb.
  destruct x as [[]|[]| |[] mx ex], y as [[]|[]| |[] my ey];
    simpl; try congruence;
    rewrite (Z.compare_antisym ey ex); destruct (ey ?= ex)%Z;
    simpl; try congruence;
    change (PosDef.Pos.compare_cont Eq) with Pos.compare;
    rewrite (Pos.compare_antisym my mx); destruct (my ?= mx)%positive;
    simpl; congruence.
Qed.

#[export] Instance binary64_order : PyFloatOrder float.
Proof.
  constructor. intros x y. cbn.
  rewrite leb_spec, ltb_spec. apply SFleb_not_SFltb.
Qed.

#[export] Instance exact_order : PyFloatOrder Q.
Proof.
  constructor. intros x y Hxy. cbn in *. by rewrite Hxy.
Qed.

Section Strategy.
Context {F : Type} `{PyFloatOrder F}.

Lemma try_fallback_api_keeps (a : agent F) :
  config (try_fallback_api a) = config a ∧
  data_store (try_fallback_api a) = data_store a ∧
  collection_stats (try_fallback_api a) = collection_stats a ∧
  delay_multiplier (try_fallback_api a) = delay_multiplier a.
Proof.
  unfold try_fallback_api.
  destruct (default [] _) as [|first rest]; [done|].
  by destruct (negb _).
Qed.

(** C4. [get_success_rate] is [1.0] when no request has been made, and
    the quotient [successful_requests / total_requests] once
    [total_requests] is positive. *)
Theorem get_success_rate_spec (a : agent F) :
  (total_requests (collection_stats a) = 0 →
   get_success_rate a = f_of_Z 1) ∧
  (0 < total_requests (collection_stats a) →
   get_success_rate a =
     truediv (successful_requests (collection_stats a))
             (total_requests (collection_stats a))).
Proof.
  unfold get_success_rate. split; intros Ht.
  - by rewrite Ht.
  - destruct (Z.eqb_spec (total_requests (collection_stats a)) 0); [lia|done].
Qed.

(** C2. The three cases of [adjust_strategy].  Below 0.5 the multiplier
    is doubled and the endpoint becomes the first fallback when there is
    one and it differs from the current endpoint (and stays otherwise);
    else above 0.9 the multiplier is multiplied by 0.8 and nothing else
    changes; between 0.5 and 0.9, both included, the agent is unchanged. *)
Theorem adjust_strategy_cases (a : agent F) :
  let success_rate := get_success_rate a in
  let fallback := default [] (fallback_apis (api_settings (config a))) in
  (flt success_rate (lit 5 10) = true →
     delay_multiplier (adjust_strategy a) = fmul (delay_multiplier a) (f_of_Z 2) ∧
     (∀ first rest, fallback = first :: rest → first ≠ current_api a →
        current_api (adjust_strategy a) = first) ∧
     (fallback = [] ∨ head fallback = Some (current_api a) →
        current_api (adjust_strategy a) = current_api a)) ∧
  (flt success_rate (lit 5 10) = false → flt (lit 9 10) success_rate = true →
     adjust_strategy a =
       set_delay_multiplier a (fmul (delay_multiplier a) (lit 8 10))) ∧
  (fle (lit 5 10) success_rate = true → fle success_rate (lit 9 10) = true →
     adjust_strategy a = a).
Proof.
  intros success_rate fallback. unfold adjust_strategy.
  fold success_rate. split; [|split].
  - intros Hlt. rewrite Hlt. split; [apply try_fallback_api_keeps|].
    unfold try_fallback_api. cbn. fold fallback. split.
    + intros first rest Hfb Hne. rewrite Hfb.
      destruct (String.eqb_spec (current_api a) first); [congruence|done].
    + intros Hfb. destruct fallback as [|first rest]; [done|].
      destruct Hfb as [|Hhd]; [done|]. cbn in Hhd.
      destruct (String.eqb_spec (current_api a) first); [done|congruence].
  - by intros -> ->.
  - intros Hlo Hhi.
    by rewrite (fle_not_flt _ _ Hlo), (fle_not_flt _ _ Hhi).
Qed.

(** Every call multiplies the multiplier by 2 or by 0.8, or leaves it. *)
Lemma adjust_strategy_multiplier (a : agent F) :
  delay_multiplier (adjust_strategy a) = fmul (delay_multiplier a) (f_of_Z 2) ∨
  delay_multiplier (adjust_strategy a) = fmul (delay_multiplier a) (lit 8 10) ∨
  delay_multiplier (adjust_strategy a) = delay_multiplier a.
Proof.
  unfold adjust_strategy. destruct (flt (get_success_rate a) (lit 5 10)).
  - left. apply try_fallback_api_keeps.
  - destruct (flt (lit 9 10) (get_success_rate a)); auto.
Qed.

Lemma adjust_run_app (h1 h2 : list stats) (a : agent F) :
  adjust_run (h1 ++ h2) a = adjust_run h2 (adjust_run h1 a).
Proof. revert a. induction h1 as [|s h1 IH]; intros a; cbn; [done|apply IH]. Qed.

End Strategy.

Section Cycle.
Context {F : Type} `{PyFloat F}.

(** What one call of [make_api_request] does to the balance of the
    counters: nothing, or one too many on the right. *)
Lemma make_api_request_balance (o : fetch_outcome F) (a : agent F) :
  let s := collection_stats a in
  let s' := collection_stats (make_api_request o a).1 in
  total_requests s' = total_requests s + 1 ∧
  successful_requests s' + failed_requests s' - total_requests s' =
    successful_requests s + failed_requests s - total_requests s
    + (if counted_twice o then 1 else 0).
Proof.
  destruct o as [e|status_code json]; cbn; [lia|].
  destruct (status_code =? 200); cbn.
  - destruct json as [[| | | | | |raw_data]|]; cbn; try lia.
    destruct (py_len _); cbn; [|lia]. destruct (save_raw_data _); cbn; lia.
  - destruct (status_code =? 403), (status_code =? 429), (status_code =? 401);
      cbn; lia.
Qed.

(** C1. A 200 response whose body is not JSON is counted as a success
    and as a failure: after this one cycle on a fresh agent the three
    counters are all 1, and the two outcomes add up to one more than the
    requests made. *)
Theorem unparsable_200_counted_twice (cfg : config_t F) :
  let s := collection_stats (make_api_request (Responded 200 None) (init cfg)).1 in
  total_requests s = 1 ∧ successful_requests s = 1 ∧ failed_requests s = 1 ∧
  ¬ balanced s.
Proof. cbn. unfold balanced. cbn. lia. Qed.

End Cycle.

Section Validation.
Context {F : Type} `{PyFloat F}.

Lemma validate_data_true (a : agent F) (batch : list (gmap string (pyval F))) :
  validate_data a (Some batch) = true ↔
  batch ≠ [] ∧
  ∀ item field, item ∈ batch → field ∈ required_fields (data_quality (config a)) →
    field_ok item field = true.
Proof.
  unfold validate_data. destruct batch as [|item0 rest].
  { split; [done|]. by intros [? _]. }
  rewrite forallb_forall. split.
  - intros Hall. split; [done|]. intros item field Hitem Hfield.
    apply list_elem_of_In in Hitem, Hfield.
    specialize (Hall item Hitem). rewrite forallb_forall in Hall. by apply Hall.
  - intros [_ Hall] item Hitem. rewrite forallb_forall. intros field Hfield.
    apply Hall; by apply list_elem_of_In.
Qed.

Lemma field_ok_true (item : gmap string (pyval F)) (field : string) :
  field_ok item field = true ↔ ∃ v, item !! field = Some v ∧ truthy v = true.
Proof.
  unfold field_ok. destruct (item !! field) as [v|]; split.
  - eauto.
  - by intros (? & [= <-] & ?).
  - done.
  - by intros (? & ? & ?).
Qed.

Lemma validate_and_store_stats (a : agent F) data :
  collection_stats (validate_and_store a data) = collection_stats a.
Proof. unfold validate_and_store. by destruct (validate_data a data). Qed.

(** C3, as the code has it.  The validation and storage step leaves the
    counters alone.  If some record of the batch has a required field
    that is absent or holds a false value ([None], [False], zero, or an
    empty string, list or dict), nothing is stored; if every required
    field of every record is present with a true value, the whole batch is
    appended to the data store, in order. *)
Theorem validate_and_store_all_or_nothing
    (a : agent F) (batch : list (gmap string (pyval F))) :
  let fields := required_fields (data_quality (config a)) in
  let a' := validate_and_store a (Some batch) in
  collection_stats a' = collection_stats a ∧
  ((∃ item field, item ∈ batch ∧ field ∈ fields ∧
      ∀ v, item !! field = Some v → truthy v = false) →
   data_store a' = data_store a) ∧
  ((∀ item field, item ∈ batch → field ∈ fields →
      ∃ v, item !! field = Some v ∧ truthy v = true) →
   data_store a' = data_store a ++ batch).
Proof.
  intros fields a'. split; [apply validate_and_store_stats|].
  subst a'. unfold validate_and_store. split.
  - intros (item & field & Hitem & Hfield & Hbad).
    destruct (validate_data a (Some batch)) eqn:Hv; [|done].
    apply validate_data_true in Hv as [_ Hall].
    apply (Hall item field Hitem), field_ok_true in Hfield as (v & Hv & Ht).
    rewrite (Hbad v Hv) in Ht. discriminate.
  - intros Hall. destruct (validate_data a (Some batch)) eqn:Hv; [done|].
    destruct batch as [|item0 rest]; [by rewrite app_nil_r|].
    assert (validate_data a (Some (item0 :: rest)) = true) as Hv'; [|congruence].
    apply validate_data_true. split; [done|].
    intros item field Hitem Hfield. apply field_ok_true. by apply Hall.
Qed.

(** C10.  A false value is as good as a missing one.  [process_data]
    fills in the integer 0 for a raw item without [elixirCost], and all
    five fields of a processed record are present; 0 and the empty string
    are false; and a batch with a record whose value for a required field
    is false fails [validate_data] and leaves the data store as it was. *)
Theorem falsy_required_field_rejects_batch :
  (∀ now (item : gmap string (pyval F)),
     item !! "elixirCost"%string = None →
     process_item now item !! "elixir_cost"%string = Some (VInt 0)) ∧
  (∀ now (item : gmap string (pyval F)) field,
     field ∈ ["name"; "elixir_cost"; "type"; "rarity"; "collected_at"]%string →
     is_Some (process_item now item !! field)) ∧
  truthy (F:=F) (VInt 0) = false ∧ truthy (F:=F) (VStr "") = false ∧
  (∀ (a : agent F) batch item field v,
     item ∈ batch → field ∈ required_fields (data_quality (config a)) →
     item !! field = Some v → truthy v = false →
     validate_data a (Some batch) = false ∧
     data_store (validate_and_store a (Some batch)) = data_store a).
Proof.
  split; [|split; [|split; [|split]]]; try done.
  - intros now item Hnone. unfold process_item. by simplify_map_eq.
  - intros now item field Hfield. unfold process_item.
    repeat (apply elem_of_cons in Hfield as [->|Hfield]; [by simplify_map_eq|]).
    by apply elem_of_nil in Hfield.
  - intros a batch item field v Hitem Hfield Hv Hfalse.
    assert (validate_data a (Some batch) = false) as Hval.
    { destruct (validate_data a (Some batch)) eqn:Hval; [|done].
      apply validate_data_true in Hval as [_ Hall].
      apply (Hall item field Hitem), field_ok_true in Hfield as (v' & Hv' & Ht).
      congruence. }
    split; [done|]. unfold validate_and_store. by rewrite Hval.
Qed.

End Validation.

Section Quality.
Context {F : Type} `{PyFloat F}.
Variable fromisoformat : string → option Z.

(** A counting loop counts the elements that pass its test. *)
Lemma count_loop_filter {A} (f : A → bool) (P : A → Prop)
    `{∀ x, Decision (P x)} (l : list A) (n : Z) :
  (∀ x, f x = true ↔ P x) →
  fold_left (λ n x, if f x then n + 1 else n) l n
  = n + Z.of_nat (length (filter P l)).
Proof.
  intros Hf. revert n. induction l as [|x l IH]; intros n; cbn [fold_left].
  { rewrite filter_nil. cbn. lia. }
  rewrite IH. destruct (f x) eqn:Hx.
  - rewrite filter_cons_True by by apply Hf. cbn [length]. lia.
  - rewrite filter_cons_False; [lia|]. rewrite <- Hf. congruence.
Qed.

Lemma forallb_field_ok_complete fields (item : gmap string (pyval F)) :
  forallb (field_ok item) fields = true ↔ complete fields item.
Proof.
  rewrite forallb_forall. unfold complete. split.
  - intros Hall field Hfield. apply field_ok_true, Hall. by apply list_elem_of_In.
  - intros Hall field Hfield. apply field_ok_true, Hall. by apply list_elem_of_In.
Qed.

Lemma is_fresh_timely current_time max_age (item : gmap string (pyval F)) :
  is_fresh fromisoformat current_time max_age item = true
  ↔ timely fromisoformat current_time max_age item.
Proof.
  unfold is_fresh, timely. split.
  - destruct (item !! "collected_at"%string) as [[| | | |s| |]|]; try done.
    destruct (fromisoformat s) as [t|] eqn:Hs; [|done]. eauto.
  - intros (s & t & -> & -> & Hage). done.
Qed.

#[export] Instance complete_dec fields (item : gmap string (pyval F)) :
  Decision (complete fields item).
Proof.
  refine (cast_if (decide (forallb (field_ok item) fields = true)));
    by rewrite <- forallb_field_ok_complete.
Defined.

#[export] Instance timely_dec current_time max_age (item : gmap string (pyval F)) :
  Decision (timely fromisoformat current_time max_age item).
Proof.
  refine (cast_if (decide (is_fresh fromisoformat current_time max_age item = true)));
    by rewrite <- is_fresh_timely.
Defined.

Lemma check_completeness_count (a : agent F) :
  check_completeness a =
    match data_store a with
    | [] => f_of_Z 0
    | _ :: _ =>
        truediv
          (Z.of_nat (length (filter (complete (required_fields (data_quality (config a))))
                                    (data_store a))))
          (Z.of_nat (length (data_store a)))
    end.
Proof.
  unfold check_completeness. destruct (data_store a) as [|item0 rest] eqn:Hstore; [done|].
  rewrite (count_loop_filter _ (complete (required_fields (data_quality (config a)))))
    by apply forallb_field_ok_complete.
  destruct (Z.ltb_spec 0 (Z.of_nat (length (item0 :: rest)))); [done|].
  cbn [length] in *. lia.
Qed.

Lemma check_timeliness_count (current_time : Z) (a : agent F) :
  check_timeliness fromisoformat current_time a =
    match data_store a with
    | [] => f_of_Z 0
    | _ :: _ =>
        truediv
          (Z.of_nat (length (filter (timely fromisoformat current_time
                                       (max_age_hours (data_quality (config a))))
                                    (data_store a))))
          (Z.of_nat (length (data_store a)))
    end.
Proof.
  unfold check_timeliness. destruct (data_store a) as [|item0 rest] eqn:Hstore; [done|].
  by rewrite (count_loop_filter _ (timely fromisoformat current_time
                                      (max_age_hours (data_quality (config a)))))
    by apply is_fresh_timely.
Qed.

(** The sum of [assess_data_quality], written out. *)
Lemma assess_data_quality_mean (current_time : Z) (a : agent F) :
  assess_data_quality fromisoformat current_time a =
    match data_store a with
    | [] => f_of_Z 0
    | _ :: _ =>
        fdiv (fadd (fadd (fadd (fadd (f_of_Z 0) (check_completeness a)) (lit 9 10))
                         (lit 85 100))
                   (check_timeliness fromisoformat current_time a))
             (f_of_Z 4)
    end.
Proof. unfold assess_data_quality. by destruct (data_store a). Qed.

(** C8.  The timeliness score is 0 on an empty data store, and otherwise
    the number of timely records (those whose [collected_at] parses to an
    age of at most [max_age_hours]) over the number of all records: a
    record without a readable timestamp counts below the line only. *)
Theorem check_timeliness_fraction (current_time : Z) (a : agent F) :
  ∃ fresh_items total_items : nat,
    total_items = length (data_store a) ∧
    fresh_items =
      length (filter (timely fromisoformat current_time
                        (max_age_hours (data_quality (config a))))
                     (data_store a)) ∧
    (fresh_items ≤ total_items)%nat ∧
    check_timeliness fromisoformat current_time a =
      match total_items with
      | O => f_of_Z 0
      | S _ => truediv (Z.of_nat fresh_items) (Z.of_nat total_items)
      end.
Proof.
  eexists _, _. split; [done|]. split; [done|]. split; [apply length_filter|].
  rewrite check_timeliness_count. by destruct (data_store a).
Qed.

End Quality.

Section QualityValue.
Variable fromisoformat : string → option Z.

Lemma filter_pair_all {A} (P : A → Prop) `{∀ x, Decision (P x)} (x y : A) :
  P x → P y → filter P [x; y] = [x; y].
Proof.
  intros Hx Hy.
  rewrite filter_cons_True by done. by rewrite filter_cons_True by done.
Qed.

(** In exact arithmetic a count over a larger count is between 0 and 1. *)
Lemma fraction_bounds (k n : nat) :
  (k ≤ n)%nat → (0 < n)%nat →
  (0 <= truediv (F:=Q) (Z.of_nat k) (Z.of_nat n) <= 1)%Q.
Proof.
  intros Hk Hn. unfold truediv. cbn.
  assert (0 < inject_Z (Z.of_nat n))%Q as Hpos.
  { change 0%Q with (inject_Z 0). rewrite <- Zlt_Qlt. lia. }
  split.
  - apply Qle_shift_div_l; [done|]. rewrite Qmult_0_l.
    change 0%Q with (inject_Z 0). rewrite <- Zle_Qle. lia.
  - apply Qle_shift_div_r; [done|]. rewrite Qmult_1_l.
    rewrite <- Zle_Qle. lia.
Qed.

Lemma score_bounds (a : agent Q) (current_time : Z) :
  (0 <= check_completeness a <= 1)%Q ∧
  (0 <= check_timeliness fromisoformat current_time a <= 1)%Q.
Proof.
  rewrite check_completeness_count, check_timeliness_count.
  destruct (data_store a) as [|item0 rest] eqn:Hstore; [by cbn|].
  split; (apply fraction_bounds; [apply length_filter|cbn; lia]).
Qed.

(** In exact arithmetic: [assess_data_quality] is 0 on an empty data
    store and otherwise the mean of completeness, 0.9, 0.85 and
    timeliness; it lies between 0 and 1; and on a store of two records,
    both complete and both timely, it is 0.9375. *)
Lemma assess_data_quality_exact (current_time : Z) (a : agent Q) :
  let score := assess_data_quality fromisoformat current_time a in
  let fields := required_fields (data_quality (config a)) in
  let max_age := max_age_hours (data_quality (config a)) in
  (data_store a = [] → score = 0%Q) ∧
  (data_store a ≠ [] →
     score == (check_completeness a + (9 # 10) + (85 # 100)
               + check_timeliness fromisoformat current_time a) / 4)%Q ∧
  (0 <= score <= 1)%Q ∧
  (∀ r1 r2, data_store a = [r1; r2] →
     complete fields r1 → complete fields r2 →
     timely fromisoformat current_time max_age r1 →
     timely fromisoformat current_time max_age r2 →
     score == 9375 # 10000)%Q.
Proof.
  intros score fields max_age. subst score.
  rewrite assess_data_quality_mean.
  destruct (score_bounds a current_time) as [[Hc0 Hc1] [Ht0 Ht1]].
  split; [by intros ->|]. split; [|split].
  - intros Hne. destruct (data_store a) as [|item0 rest]; [done|].
    cbn. unfold lit. cbn. apply Qdiv_comp; [|done].
    rewrite Qplus_0_l. apply Qplus_comp; [|done].
    apply Qplus_comp; [|done]. by apply Qplus_comp.
  - destruct (data_store a) as [|item0 rest]; [by cbn|].
    unfold lit. cbn.
    generalize dependent (check_completeness a).
    generalize dependent (check_timeliness fromisoformat current_time a).
    intros t Ht0 Ht1 c Hc0 Hc1.
    change (inject_Z 4) with 4%Q. change (inject_Z 0) with 0%Q.
    split.
    + apply Qle_shift_div_l; [done|].
      setoid_replace (inject_Z 9 / inject_Z 10)%Q with (9 # 10)%Q using relation Qeq by done.
      setoid_replace (inject_Z 85 / inject_Z 100)%Q with (85 # 100)%Q using relation Qeq by done.
      lra.
    + apply Qle_shift_div_r; [done|].
      setoid_replace (inject_Z 9 / inject_Z 10)%Q with (9 # 10)%Q using relation Qeq by done.
      setoid_replace (inject_Z 85 / inject_Z 100)%Q with (85 # 100)%Q using relation Qeq by done.
      lra.
  - intros r1 r2 Hstore Hc1' Hc2' Ht1' Ht2'.
    rewrite check_completeness_count, check_timeliness_count, Hstore.
    fold fields max_age. by rewrite !filter_pair_all.
Qed.

(** The same store in binary64: the four additions and the division
    round to 0.9375 exactly. *)
Lemma assess_data_quality_binary64 (current_time : Z) (a : agent float) r1 r2 :
  let fields := required_fields (data_quality (config a)) in
  let max_age := max_age_hours (data_quality (config a)) in
  data_store a = [r1; r2] →
  complete fields r1 → complete fields r2 →
  timely fromisoformat current_time max_age r1 →
  timely fromisoformat current_time max_age r2 →
  assess_data_quality fromisoformat current_time a = 0.9375%float.
Proof.
  intros fields max_age Hstore Hc1 Hc2 Ht1 Ht2.
  rewrite assess_data_quality_mean, check_completeness_count,
    check_timeliness_count, Hstore.
  fold fields max_age. by rewrite !filter_pair_all.
Qed.

End QualityValue.

(** ** Rounding of a binary64 product

    What the multiplier needs of IEEE multiplication, from its
    specification [SFmul]: the product of a positive float with 2 or with
    0.8 is positive. *)

Section Rounding.

Lemma digits2_pos_size (p : positive) : digits2_pos p = Pos.size p.
Proof. induction p as [p IH|p IH|]; cbn; by rewrite ?IH. Qed.

Lemma digits2_pos_bounds (p : positive) :
  2 ^ (Z.pos (digits2_pos p) - 1) <= Z.pos p < 2 ^ Z.pos (digits2_pos p).
Proof.
  rewrite digits2_pos_size.
  pose proof (Pos.size_le p) as Hle. pose proof (Pos.size_gt p) as Hgt.
  apply Pos2Z.pos_le_pos in Hle. apply Pos2Z.pos_lt_pos in Hgt.
  rewrite Pos2Z.inj_pow in Hle, Hgt. split; [|done].
  replace (Z.pos (Pos.size p)) with (Z.succ (Z.pos (Pos.size p) - 1)) in Hle by lia.
  rewrite Z.pow_succ_r in Hle by lia. lia.
Qed.

Lemma digits2_pos_mul (a b : positive) :
  Z.pos (digits2_pos a) + Z.pos (digits2_pos b) - 1 <= Z.pos (digits2_pos (a * b)).
Proof.
  destruct (digits2_pos_bounds a) as [Ha _], (digits2_pos_bounds b) as [Hb _].
  destruct (digits2_pos_bounds (a * b)) as [_ Hab].
  assert (2 ^ (Z.pos (digits2_pos a) - 1 + (Z.pos (digits2_pos b) - 1))
          < 2 ^ Z.pos (digits2_pos (a * b))) as Hlt.
  { rewrite Z.pow_add_r by lia. rewrite Pos2Z.inj_mul in Hab.
    eapply Z.le_lt_trans; [|exact Hab].
    apply Z.mul_le_mono_nonneg; lia. }
  apply Z.pow_lt_mono_r_iff in Hlt; lia.
Qed.

Lemma shr_1_digits (s : shr_record) :
  Zdigits2 (shr_m (shr_1 s)) = Z.max 0 (Zdigits2 (shr_m s) - 1).
Proof. destruct s as [[|[p|p|]|[p|p|]] r s]; cbn -[Z.max Z.sub]; rewrite ?Pos2Z.inj_succ; lia. Qed.

Lemma iter_shr_1_digits (n : positive) (s : shr_record) :
  Zdigits2 (shr_m (SpecFloat.iter_pos shr_1 n s)) = Z.max 0 (Zdigits2 (shr_m s) - Z.pos n).
Proof.
  revert s. induction n as [n IH|n IH|]; intros s; cbn [SpecFloat.iter_pos].
  - rewrite !IH, shr_1_digits. lia.
  - rewrite !IH. lia.
  - apply shr_1_digits.
Qed.

Lemma shr_1_nonneg (s : shr_record) : 0 <= shr_m s → 0 <= shr_m (shr_1 s).
Proof. destruct s as [[|[p|p|]|[p|p|]] r s]; cbn; lia. Qed.

Lemma iter_shr_1_nonneg (n : positive) (s : shr_record) :
  0 <= shr_m s → 0 <= shr_m (SpecFloat.iter_pos shr_1 n s).
Proof.
  revert s. induction n as [n IH|n IH|]; intros s Hs; cbn [SpecFloat.iter_pos].
  - by apply IH, IH, shr_1_nonneg.
  - by apply IH, IH.
  - by apply shr_1_nonneg.
Qed.

Lemma Zdigits2_positive (m : Z) : 0 <= m → 0 < Zdigits2 m → 0 < m.
Proof. destruct m; cbn; lia. Qed.

Lemma round_nearest_even_positive (m : Z) (l : location) :
  0 < m → 0 < round_nearest_even m l.
Proof.
  intros Hm. destruct l as [|[]]; cbn [round_nearest_even]; try lia.
  destruct (Z.even m); lia.
Qed.

(** A shift by [fexp] leaves a positive mantissa positive when the number
    is above the smallest exponent, and brings the exponent to the range. *)
Lemma shr_fexp_positive (m e : Z) :
  0 < m → SpecFloat.emin prec emax < Zdigits2 m + e →
  0 < shr_m (shr_fexp prec emax m e loc_Exact).1 ∧
  SpecFloat.emin prec emax <= (shr_fexp prec emax m e loc_Exact).2.
Proof.
  intros Hm Hrange. unfold shr_fexp, shr, fexp.
  destruct (Z.max (Zdigits2 m + e - prec) (SpecFloat.emin prec emax) - e)
    as [|n|n] eqn:Hn; cbn [fst snd shr_m shr_record_of_loc]; try lia.
  split; [|lia]. apply Zdigits2_positive.
  - apply iter_shr_1_nonneg. cbn. lia.
  - rewrite iter_shr_1_digits. cbn [shr_m]. unfold prec in *. lia.
Qed.

Lemma binary_round_aux_positive (m e : Z) :
  0 < m → SpecFloat.emin prec emax < Zdigits2 m + e →
  SFltb (S754_zero false) (binary_round_aux prec emax false m e loc_Exact) = true.
Proof.
  intros Hm Hrange. unfold binary_round_aux.
  destruct (shr_fexp_positive m e Hm Hrange) as [Hm1 He1].
  destruct (shr_fexp prec emax m e loc_Exact) as [mrs1 e1]. cbn [fst snd] in *.
  pose proof (round_nearest_even_positive _ (loc_of_shr_record mrs1) Hm1) as Hm2.
  set (m2 := round_nearest_even (shr_m mrs1) (loc_of_shr_record mrs1)) in *.
  clearbody m2.
  assert (0 < shr_m (shr_fexp prec emax m2 e1 loc_Exact).1) as Hm3.
  { unfold shr_fexp, shr, fexp.
    destruct (Z.max (Zdigits2 m2 + e1 - prec) (SpecFloat.emin prec emax) - e1)
      as [|n|n] eqn:Hn; cbn [fst shr_m shr_record_of_loc]; try lia.
    apply Zdigits2_positive.
    - apply iter_shr_1_nonneg. cbn. lia.
    - rewrite iter_shr_1_digits. cbn [shr_m]. unfold prec in *. lia. }
  destruct (shr_fexp prec emax m2 e1 loc_Exact) as [mrs3 e3]. cbn [fst] in Hm3.
  destruct (shr_m mrs3) as [|m3|m3]; [lia| |lia].
  by destruct (e3 <=? emax - prec).
Qed.

Lemma valid_binary_exponent (s : bool) (m : positive) (e : Z) :
  valid_binary (S754_finite s m e) = true → SpecFloat.emin prec emax <= e.
Proof.
  cbn [SpecFloat.valid_binary]. unfold bounded. intros Hvalid.
  apply andb_prop in Hvalid as [Hcanon _].
  unfold canonical_mantissa, fexp in Hcanon. apply Z.eqb_eq in Hcanon.
  revert Hcanon. generalize (SpecFloat.emin prec emax). intros emin Hcanon. lia.
Qed.

(** The product of a positive number and a positive constant with a full
    mantissa and an exponent above [-prec] is positive. *)
Lemma SFmul_positive (x : spec_float) (my : positive) (ey : Z) :
  valid_binary x = true →
  SFltb (S754_zero false) x = true →
  Z.pos (digits2_pos my) = prec → - prec < ey →
  SFltb (S754_zero false) (SF64mul x (S754_finite false my ey)) = true.
Proof.
  intros Hvalid Hx Hmy Hey.
  destruct x as [s|s| |s mx ex]; try done; destruct s; try done.
  cbn [SF64mul SFmul xorb].
  apply valid_binary_exponent in Hvalid.
  apply binary_round_aux_positive; [lia|].
  cbn [Zdigits2]. pose proof (digits2_pos_mul mx my). unfold prec in *.
  assert (1 <= Z.pos (digits2_pos mx)) by lia. lia.
Qed.

(** Doubling a positive float gives a positive float. *)
Lemma mul_2_positive (x : float) :
  PrimFloat.ltb 0 x = true → PrimFloat.ltb 0 (x * 2) = true.
Proof.
  rewrite !ltb_spec, mul_spec.
  change (Prim2SF 0) with (S754_zero false).
  change (Prim2SF 2) with (S754_finite false 4503599627370496 (-51)).
  intros Hx. apply SFmul_positive; [apply Prim2SF_valid|done|done|done].
Qed.

(** So does multiplying it by 0.8: the smallest positive float rounds
    back to itself, and above it the product does not underflow. *)
Lemma mul_08_positive (x : float) :
  PrimFloat.ltb 0 x = true → PrimFloat.ltb 0 (x * 0x1.999999999999ap-1) = true.
Proof.
  rewrite !ltb_spec, mul_spec.
  change (Prim2SF 0) with (S754_zero false).
  change (Prim2SF 0x1.999999999999ap-1)
    with (S754_finite false 7205759403792794 (-53)).
  pose proof (Prim2SF_valid x) as Hvalid.
  destruct (Prim2SF x) as [s|s| |s mx ex]; try done; destruct s; try done.
  intros _. cbn [SF64mul SFmul xorb].
  pose proof (valid_binary_exponent _ _ _ Hvalid) as Hex.
  destruct (decide (mx = 1%positive ∧ ex = SpecFloat.emin prec emax)) as [[-> ->]|Hne].
  { vm_compute. reflexivity. }
  apply binary_round_aux_positive; [lia|].
  cbn [Zdigits2]. pose proof (digits2_pos_mul mx 7205759403792794).
  change (Z.pos (digits2_pos 7205759403792794)) with 53 in *.
  assert (1 <= Z.pos (digits2_pos mx)) by lia.
  assert (mx ≠ 1%positive → 2 <= Z.pos (digits2_pos mx)).
  { intros Hmx. destruct mx; cbn; lia. }
  unfold prec, emax, SpecFloat.emin in *.
  destruct (decide (mx = 1%positive)) as [->|Hmx]; [|lia].
  assert (ex ≠ 3 - 1024 - 53) by (intros ->; apply Hne; done). lia.
Qed.

End Rounding.

(** ** A bound that rounding does not cross

    What the quality score needs of IEEE addition and division, from their
    specifications [SFadd] and [SFdiv]: rounding to nearest does not take a
    value past an integer it does not exceed. *)

Section RoundingBound.

Lemma pow2_split (a b : Z) : 0 <= a → 0 <= b → 2 ^ (a + b) = 2 ^ a * 2 ^ b.
Proof. intros. by apply Z.pow_add_r. Qed.

Lemma pow2_positive (a : Z) : 0 <= a → 0 < 2 ^ a.
Proof. intros. by apply Z.pow_pos_nonneg. Qed.

Lemma Zdigits2_bound (m k : Z) : 0 <= m → 0 <= k → m < 2 ^ k → Zdigits2 m <= k.
Proof.
  intros Hm Hk Hlt. destruct m as [|p|p]; [done| |lia]. cbn [Zdigits2].
  destruct (digits2_pos_bounds p) as [Hlow _].
  assert (2 ^ (Z.pos (digits2_pos p) - 1) < 2 ^ k) as Hpow by lia.
  apply Z.pow_lt_mono_r_iff in Hpow; lia.
Qed.

Lemma Zdigits2_lower (m : Z) : 0 < m → 2 ^ (Zdigits2 m - 1) <= m.
Proof.
  intros Hm. destruct m as [|p|p]; [lia| |lia]. apply digits2_pos_bounds.
Qed.

Lemma shr_m_of_loc (m : Z) (l : location) : shr_m (shr_record_of_loc m l) = m.
Proof. by destruct l as [|[]]. Qed.

Lemma shr_upper_of_loc (m : Z) (l : location) :
  m <= shr_upper (shr_record_of_loc m l) <= m + 1.
Proof. destruct l as [|[]]; unfold shr_upper; cbn; lia. Qed.

Lemma shr_upper_exact (m : Z) : shr_upper (shr_record_of_loc m loc_Exact) = m.
Proof. done. Qed.

Lemma shr_upper_mantissa (s : shr_record) : shr_m s <= shr_upper s.
Proof. unfold shr_upper. destruct (_ || _); lia. Qed.

(** One step of the shift halves the bound. *)
Lemma shr_1_upper (s : shr_record) (N : Z) :
  0 <= shr_m s → shr_upper s <= 2 * N → shr_upper (shr_1 s) <= N.
Proof.
  destruct s as [[|[p|p|]|p] [] []]; unfold shr_upper; cbn; lia.
Qed.

Lemma iter_shr_1_upper (n : positive) (s : shr_record) (N : Z) :
  0 <= shr_m s → shr_upper s <= 2 ^ Z.pos n * N →
  shr_upper (SpecFloat.iter_pos shr_1 n s) <= N.
Proof.
  revert s N. induction n as [n IH|n IH|]; intros s N Hs Hupper;
    cbn [SpecFloat.iter_pos].
  - apply IH; [by apply iter_shr_1_nonneg, shr_1_nonneg|].
    apply IH; [by apply shr_1_nonneg|].
    apply shr_1_upper; [done|].
    rewrite (Pos2Z.inj_xI n) in Hupper.
    replace (2 * Z.pos n + 1) with (1 + Z.pos n + Z.pos n) in Hupper by lia.
    rewrite !pow2_split in Hupper by lia. change (2 ^ 1) with 2 in Hupper. lia.
  - apply IH; [by apply iter_shr_1_nonneg|]. apply IH; [done|].
    rewrite (Pos2Z.inj_xO n) in Hupper.
    replace (2 * Z.pos n) with (Z.pos n + Z.pos n) in Hupper by lia.
    rewrite pow2_split in Hupper by lia. lia.
  - by apply shr_1_upper.
Qed.

Lemma round_nearest_even_upper (s : shr_record) :
  0 <= shr_m s →
  0 <= round_nearest_even (shr_m s) (loc_of_shr_record s) <= shr_upper s.
Proof.
  destruct s as [m [] []]; unfold shr_upper; cbn; try lia.
  destruct (Z.even m); lia.
Qed.

(** The shift to the exponent of the format keeps a number under an
    integer bound under it. *)
Lemma shr_fexp_bounded (B m e : Z) (l : location) :
  0 <= B <= 2 ^ 52 → 0 <= m → e <= 0 →
  shr_upper (shr_record_of_loc m l) <= B * 2 ^ (- e) →
  0 <= shr_m (shr_fexp prec emax m e l).1 ∧
  (shr_fexp prec emax m e l).2 <= 0 ∧
  shr_upper (shr_fexp prec emax m e l).1
  <= B * 2 ^ (- (shr_fexp prec emax m e l).2).
Proof.
  intros HB Hm He Hupper. unfold shr_fexp, shr.
  destruct (fexp prec emax (Zdigits2 m + e) - e) as [|n|n] eqn:Hn;
    cbn [fst snd]; rewrite ?shr_m_of_loc; try done.
  assert (Zdigits2 m + e <= 53) as Hdigits.
  { pose proof (shr_upper_of_loc m l) as [Hle _].
    assert (m < 2 ^ (53 - e)) as Hlt.
    { replace (53 - e) with (53 + - e) by lia. rewrite pow2_split by lia.
      pose proof (pow2_positive (- e)). nia. }
    pose proof (Zdigits2_bound m (53 - e) Hm). lia. }
  assert (e + Z.pos n <= 0) as He1.
  { unfold fexp, SpecFloat.emin, prec, emax in Hn. lia. }
  split; [|split; [done|]].
  - apply iter_shr_1_nonneg. by rewrite shr_m_of_loc.
  - apply iter_shr_1_upper; [by rewrite shr_m_of_loc|].
    replace (- e) with (Z.pos n + - (e + Z.pos n)) in Hupper by lia.
    rewrite pow2_split in Hupper by lia. lia.
Qed.

(** Rounding to nearest does not cross an integer bound. *)
Lemma binary_round_aux_bounded (B m e : Z) (l : location) :
  0 <= B <= 2 ^ 52 → 0 <= m → e <= 0 →
  shr_upper (shr_record_of_loc m l) <= B * 2 ^ (- e) →
  SFbounded B (binary_round_aux prec emax false m e l).
Proof.
  intros HB Hm He Hupper. unfold binary_round_aux.
  destruct (shr_fexp_bounded B m e l HB Hm He Hupper) as (Hm1 & He1 & Hupper1).
  destruct (shr_fexp prec emax m e l) as [mrs1 e1]. cbn [fst snd] in *.
  pose proof (round_nearest_even_upper mrs1 Hm1) as [Hm2 Hupper2].
  set (m2 := round_nearest_even (shr_m mrs1) (loc_of_shr_record mrs1)) in *.
  clearbody m2.
  destruct (shr_fexp_bounded B m2 e1 loc_Exact HB Hm2 He1) as (Hm3 & He3 & Hupper3).
  { rewrite shr_upper_exact. lia. }
  destruct (shr_fexp prec emax m2 e1 loc_Exact) as [mrs3 e3]. cbn [fst snd] in *.
  pose proof (shr_upper_mantissa mrs3).
  destruct (shr_m mrs3) as [|m3|m3]; [done| |lia].
  destruct (Z.leb_spec e3 (emax - prec)) as [_|Hover].
  - cbn. split; [done|lia].
  - unfold emax, prec in Hover. lia.
Qed.

Lemma shl_align_spec (mx : positive) (ex ex' : Z) :
  (shl_align mx ex ex').2 = Z.min ex ex' ∧
  Z.pos (shl_align mx ex ex').1 = Z.pos mx * 2 ^ (ex - Z.min ex ex').
Proof.
  unfold shl_align. destruct (ex' - ex) as [|d|d] eqn:Hd; cbn [fst snd].
  - split; [lia|]. replace (ex - Z.min ex ex') with 0 by lia. lia.
  - split; [lia|]. replace (ex - Z.min ex ex') with 0 by lia. lia.
  - split; [lia|]. replace (ex - Z.min ex ex') with (Z.pos d) by lia.
    change (Pos.iter xO mx d) with (shift_pos d mx).
    rewrite shift_pos_correct. change (Z.pow_pos 2 d) with (2 ^ Z.pos d). lia.
Qed.

(** The sum of two numbers under integer bounds is under the sum of the
    bounds. *)
Lemma SFadd_bounded (B1 B2 : Z) (x y : spec_float) :
  0 <= B1 → 0 <= B2 → B1 + B2 <= 2 ^ 52 →
  SFbounded B1 x → SFbounded B2 y →
  SFbounded (B1 + B2) (SFadd prec emax x y).
Proof.
  intros HB1 HB2 HB Hx Hy.
  destruct x as [sx|sx| |sx mx ex]; try done;
    destruct y as [sy|sy| |sy my ey]; try done.
  - by destruct sx, sy.
  - destruct sy; [done|]. cbn in *. destruct Hy as [He Hy]. split; [done|].
    pose proof (pow2_positive (- ey)). nia.
  - destruct sx; [done|]. cbn in *. destruct Hx as [He Hx]. split; [done|].
    pose proof (pow2_positive (- ex)). nia.
  - destruct sx; [done|]. destruct sy; [done|].
    cbn in Hx, Hy. destruct Hx as [Hex Hx], Hy as [Hey Hy].
    cbn [SFadd cond_Zopp].
    destruct (shl_align_spec mx ex (Z.min ex ey)) as [_ Hmx].
    destruct (shl_align_spec my ey (Z.min ex ey)) as [_ Hmy].
    replace (Z.min ex (Z.min ex ey)) with (Z.min ex ey) in Hmx by lia.
    replace (Z.min ey (Z.min ex ey)) with (Z.min ex ey) in Hmy by lia.
    set (ez := Z.min ex ey) in *.
    set (ax := (shl_align mx ex ez).1) in *.
    set (ay := (shl_align my ey ez).1) in *.
    clearbody ax ay.
    assert (Z.pos ax <= B1 * 2 ^ (- ez)) as Hax.
    { rewrite Hmx. replace (- ez) with (- ex + (ex - ez)) by lia.
      rewrite pow2_split by lia. pose proof (pow2_positive (ex - ez)). nia. }
    assert (Z.pos ay <= B2 * 2 ^ (- ez)) as Hay.
    { rewrite Hmy. replace (- ez) with (- ey + (ey - ez)) by lia.
      rewrite pow2_split by lia. pose proof (pow2_positive (ey - ez)). nia. }
    change (Z.pos ax + Z.pos ay) with (Z.pos (ax + ay)).
    cbn [binary_normalize]. unfold binary_round.
    destruct (shl_align_spec (ax + ay) ez
                (fexp prec emax (Z.pos (digits2_pos (ax + ay)) + ez)))
      as [He2 Hm2].
    destruct (shl_align (ax + ay) ez _) as [mz ez2]. cbn [fst snd] in *.
    apply binary_round_aux_bounded; [lia|lia|lia|].
    rewrite <- He2 in Hm2. rewrite shr_upper_exact, Hm2.
    replace (- ez2) with (- ez + (ez - ez2)) by lia.
    rewrite pow2_split by lia. rewrite Pos2Z.inj_add, Z.mul_assoc.
    apply Z.mul_le_mono_nonneg_r; [|lia].
    pose proof (pow2_positive (ez - ez2)). lia.
Qed.

Lemma new_location_exact (n : Z) : new_location n 0 = loc_Exact.
Proof. unfold new_location. by destruct (Z.even n). Qed.

(** The quotient of a number by one that is not smaller is at most 1. *)
Lemma SFdiv_bounded (m1 m2 : positive) (e1 e2 : Z) :
  e1 <= 0 → e2 <= 0 →
  Z.pos m1 * 2 ^ (- e2) <= Z.pos m2 * 2 ^ (- e1) →
  SFbounded 1 (SFdiv prec emax (S754_finite false m1 e1) (S754_finite false m2 e2)).
Proof.
  intros He1 He2 Hle. cbn [SFdiv xorb]. unfold SFdiv_core_binary.
  set (e' := Z.min _ _).
  assert (e' <= 0) as He'.
  { subst e'. cbn [Zdigits2].
    destruct (digits2_pos_bounds m1) as [Hlow1 _].
    destruct (digits2_pos_bounds m2) as [_ Hup2].
    assert (2 ^ (Z.pos (digits2_pos m1) - 1 + - e2)
            < 2 ^ (Z.pos (digits2_pos m2) + - e1)) as Hpow.
    { rewrite !pow2_split by lia.
      pose proof (pow2_positive (- e1)). pose proof (pow2_positive (- e2)). nia. }
    apply Z.pow_lt_mono_r_iff in Hpow; [|lia|lia].
    unfold fexp, SpecFloat.emin, prec, emax. lia. }
  assert (e' <= e1 - e2) as Hs by (subst e'; lia).
  clearbody e'.
  set (m' := match e1 - e2 - e' with Z0 => Z.pos m1 | Z.pos _ => _ | Z.neg _ => 0 end).
  assert (m' = Z.pos m1 * 2 ^ (e1 - e2 - e')) as Hm'.
  { subst m'. destruct (e1 - e2 - e') as [|s|s] eqn:Hshift; [lia| |lia].
    by rewrite Z.shiftl_mul_pow2. }
  clearbody m'.
  pose proof (Z_div_mod m' (Z.pos m2) eq_refl) as Hdiv.
  destruct (Z.div_eucl m' (Z.pos m2)) as [q r]. destruct Hdiv as [Hq Hr].
  assert (m' <= Z.pos m2 * 2 ^ (- e')) as Hm'le.
  { assert (2 ^ (- e') * 2 ^ (- e2) = 2 ^ (e1 - e2 - e') * 2 ^ (- e1)) as Hpow.
    { rewrite <- !pow2_split by lia. f_equal. lia. }
    pose proof (pow2_positive (e1 - e2 - e') ltac:(lia)) as HS.
    pose proof (pow2_positive (- e2) ltac:(lia)) as HP2.
    revert Hm' Hle Hpow HS HP2.
    generalize (2 ^ (e1 - e2 - e')) (2 ^ (- e2)) (2 ^ (- e1)) (2 ^ (- e')).
    intros S P2 P1 P' -> Hle Hpow HS HP2.
    assert (Z.pos m1 * P2 * S <= Z.pos m2 * P1 * S) as Hscaled
      by (apply Z.mul_le_mono_nonneg_r; lia).
    apply (Z.mul_le_mono_pos_r _ _ P2); [done|].
    replace (Z.pos m2 * P' * P2) with (Z.pos m2 * (P' * P2)) by lia.
    rewrite Hpow. lia. }
  pose proof (pow2_positive (- e')) as Hpos.
  assert (0 <= q) as Hq0 by nia.
  apply binary_round_aux_bounded; [lia|done|done|].
  rewrite Z.mul_1_l.
  destruct (decide (r = 0)) as [->|Hr0].
  - rewrite new_location_exact, shr_upper_exact. nia.
  - pose proof (shr_upper_of_loc q (new_location (Z.pos m2) r)) as [_ Hup].
    assert (q < 2 ^ (- e')) by nia. lia.
Qed.

(** [float(k)] is [k] for [0 <= k < 2^53]. *)
Lemma float_of_Z_integer (k : Z) :
  0 <= k < 2 ^ 53 → SFinteger k (Prim2SF (float_of_Z k)).
Proof.
  intros Hk. unfold float_of_Z.
  destruct (Z.ltb_spec k 0) as [|_]; [lia|].
  rewrite of_uint63_spec, Uint63.of_Z_spec.
  rewrite Z.mod_small by (change Uint63Axioms.wB with (2 ^ 63); lia).
  destruct k as [|p|p]; [done| |lia].
  cbn [binary_normalize]. unfold binary_round.
  destruct (shl_align_spec p 0 (fexp prec emax (Z.pos (digits2_pos p) + 0)))
    as [He Hm].
  assert (Z.pos (digits2_pos p) <= 53) as Hdigits.
  { apply (Zdigits2_bound (Z.pos p) 53); lia. }
  destruct (shl_align p 0 _) as [mz ez]. cbn [fst snd] in *.
  assert (ez = Z.pos (digits2_pos p) - 53) as Hez.
  { rewrite He. unfold fexp, SpecFloat.emin, prec, emax. lia. }
  replace (0 - Z.min 0 (fexp prec emax (Z.pos (digits2_pos p) + 0)))
    with (- ez) in Hm by lia.
  assert (Zdigits2 (Z.pos mz) + ez <= Z.pos (digits2_pos p)) as Hmz.
  { assert (Zdigits2 (Z.pos mz) <= Z.pos (digits2_pos p) - ez); [|lia].
    apply Zdigits2_bound; [lia|lia|]. rewrite Hm.
    replace (Z.pos (digits2_pos p) - ez) with (Z.pos (digits2_pos p) + - ez) by lia.
    rewrite pow2_split by lia.
    destruct (digits2_pos_bounds p) as [_ Hup].
    pose proof (pow2_positive (- ez)). nia. }
  assert (∀ m e, 0 < m → fexp prec emax (Zdigits2 m + e) - e <= 0 →
            shr_fexp prec emax m e loc_Exact = (shr_record_of_loc m loc_Exact, e))
    as Hkeep.
  { intros m e _ Hshift. unfold shr_fexp, shr.
    by destruct (fexp prec emax (Zdigits2 m + e) - e); [| lia|]. }
  assert (fexp prec emax (Zdigits2 (Z.pos mz) + ez) - ez <= 0) as Hshift.
  { unfold fexp, SpecFloat.emin, prec, emax. lia. }
  unfold binary_round_aux. rewrite Hkeep by done.
  cbn [shr_m shr_record_of_loc loc_of_shr_record round_nearest_even].
  rewrite Hkeep by done. cbn [shr_m shr_record_of_loc].
  destruct (Z.leb_spec ez (emax - prec)) as [_|Hover].
  - cbn. split; [lia|done].
  - unfold emax, prec in Hover. lia.
Qed.

(** In binary64 a count over a count that is not smaller is at most 1. *)
Lemma fraction_bounded (k n : Z) :
  0 <= k <= n → 0 < n < 2 ^ 53 →
  SFbounded 1 (Prim2SF (float_of_Z k / float_of_Z n)).
Proof.
  intros Hk Hn. rewrite div_spec.
  pose proof (float_of_Z_integer k ltac:(lia)) as Hfk.
  pose proof (float_of_Z_integer n ltac:(lia)) as Hfn.
  destruct (Prim2SF (float_of_Z n)) as [[]| | |[] mn en]; cbn in Hfn; try done;
    [lia|].
  destruct (Prim2SF (float_of_Z k)) as [[]| | |[] mk ek]; cbn in Hfk; try done.
  destruct Hfk as [Hek Hmk], Hfn as [Hen Hmn].
  apply SFdiv_bounded; [done|done|]. rewrite Hmk, Hmn.
  pose proof (pow2_positive (- ek)). pose proof (pow2_positive (- en)). nia.
Qed.

(** A binary64 number under the bound 1 compares as at most 1, and as at
    least 0. *)
Lemma SFbounded_compare (x : spec_float) :
  valid_binary x = true → SFbounded 1 x →
  SFleb (S754_zero false) x = true ∧
  SFleb x (S754_finite false 4503599627370496 (-52)) = true.
Proof.
  intros Hvalid Hx. destruct x as [s|s| |[] m e]; try done.
  cbn [SFbounded] in Hx.
  destruct Hx as [He Hm]. split; [done|].
  cbn [SpecFloat.valid_binary] in Hvalid. unfold bounded in Hvalid.
  apply andb_prop in Hvalid as [Hcanon _].
  unfold canonical_mantissa in Hcanon. apply Z.eqb_eq in Hcanon.
  unfold SFleb, SFcompare.
  destruct (Z.compare_spec e (-52)) as [->|Hlt|Hgt]; [|done|].
  - change (2 ^ (- -52)) with 4503599627370496 in Hm.
    rewrite (Pos.compare_cont_spec m 4503599627370496 Eq).
    destruct (Pos.compare_spec m 4503599627370496) as [_|_|Hgt];
      [reflexivity|reflexivity|exfalso].
    lia.
  - exfalso. destruct (digits2_pos_bounds m) as [Hlow _].
    assert (Z.pos (digits2_pos m) = 53) as Hdigits.
    { unfold fexp, SpecFloat.emin, prec, emax in Hcanon. lia. }
    rewrite Hdigits in Hlow.
    assert (2 ^ (- e) < 2 ^ 52) as Hsmall by (apply Z.pow_lt_mono_r; lia).
    change (53 - 1) with 52 in Hlow. lia.
Qed.

End RoundingBound.

Section QualityBound.
Variable fromisoformat : string → option Z.

Lemma add_bounded (B1 B2 B : Z) (x y : float) :
  0 <= B1 → 0 <= B2 → B1 + B2 = B → B <= 2 ^ 52 →
  SFbounded B1 (Prim2SF x) → SFbounded B2 (Prim2SF y) →
  SFbounded B (Prim2SF (x + y)).
Proof.
  intros HB1 HB2 <- HB Hx Hy. rewrite add_spec. by apply SFadd_bounded.
Qed.

(** A number at most [n], over [float(n)], is at most 1. *)
Lemma quotient_bounded (x : float) (n : Z) :
  0 < n < 2 ^ 53 → SFbounded n (Prim2SF x) →
  SFbounded 1 (Prim2SF (x / float_of_Z n)).
Proof.
  intros Hn Hx. rewrite div_spec.
  pose proof (float_of_Z_integer n ltac:(lia)) as Hfn.
  destruct (Prim2SF (float_of_Z n)) as [[]| | |[] mn en]; cbn in Hfn; try done;
    [lia|].
  destruct (Prim2SF x) as [s| | |[] m e]; try done.
  cbn [SFbounded] in Hx. destruct Hx as [He Hm], Hfn as [Hen Hmn].
  apply SFdiv_bounded; [done|done|]. rewrite Hmn.
  pose proof (pow2_positive (- e)). pose proof (pow2_positive (- en)). nia.
Qed.

(** In binary64 the quality of fewer than [2^53] records is between 0
    and 1: the two fractions are at most 1, and no addition rounds past
    the next integer. *)
Lemma assess_data_quality_bounded (current_time : Z) (a : agent float) :
  Z.of_nat (length (data_store a)) < 2 ^ 53 →
  SFbounded 1 (Prim2SF (assess_data_quality fromisoformat current_time a)).
Proof.
  intros Hlen.
  rewrite assess_data_quality_mean, check_completeness_count,
    check_timeliness_count.
  destruct (data_store a) as [|item0 rest] eqn:Hstore; [by vm_compute|].
  set (fields := required_fields (data_quality (config a))).
  set (max_age := max_age_hours (data_quality (config a))).
  set (store := item0 :: rest) in *.
  pose proof (length_filter (complete fields) store) as Hcomplete.
  pose proof (length_filter (timely fromisoformat current_time max_age) store)
    as Htimely.
  assert (0 < Z.of_nat (length store)) as Hpos by (cbn; lia).
  apply (quotient_bounded _ 4); [lia|].
  apply (add_bounded 3 1); [lia|lia|done|lia| |apply fraction_bounded; lia].
  apply (add_bounded 2 1); [lia|lia|done|lia| |apply (fraction_bounded 85 100); lia].
  apply (add_bounded 1 1); [lia|lia|done|lia| |apply (fraction_bounded 9 10); lia].
  apply (add_bounded 0 1); [lia|lia|done|lia|by vm_compute|].
  apply fraction_bounded; lia.
Qed.

Lemma assess_data_quality_range (current_time : Z) (a : agent float) :
  Z.of_nat (length (data_store a)) < 2 ^ 53 →
  PrimFloat.leb 0 (assess_data_quality fromisoformat current_time a) = true ∧
  PrimFloat.leb (assess_data_quality fromisoformat current_time a) 1 = true.
Proof.
  intros Hlen. rewrite !leb_spec.
  apply SFbounded_compare; [apply Prim2SF_valid|].
  by apply assess_data_quality_bounded.
Qed.

End QualityBound.

(** C5.  For every float instance, [assess_data_quality] is 0 on an empty
    data store and otherwise the sum of completeness, 0.9, 0.85 and
    timeliness over 4, where completeness is the number of complete
    records over the number of records and timeliness the number of timely
    ones over it.  In binary64, the arithmetic of the program, the result
    on a store of fewer than [2^53] records is at least 0 and at most 1,
    and on a store of two records, both complete and both timely, it is
    exactly 0.9375.  In exact arithmetic the score lies between 0 and 1
    and is 0.9375 on such a store. *)
Theorem assess_data_quality_spec (fromisoformat : string → option Z)
    (current_time : Z) :
  (∀ (F : Type) (HF : PyFloat F) (a : agent F),
     assess_data_quality fromisoformat current_time a =
       match data_store a with
       | [] => f_of_Z 0
       | _ :: _ =>
           fdiv (fadd (fadd (fadd (fadd (f_of_Z 0) (check_completeness a))
                                  (lit 9 10))
                            (lit 85 100))
                      (check_timeliness fromisoformat current_time a))
                (f_of_Z 4)
       end) ∧
  (∀ (F : Type) (HF : PyFloat F) (a : agent F),
     data_store a ≠ [] →
     let total := Z.of_nat (length (data_store a)) in
     let complete_items :=
       Z.of_nat (length (filter (complete (required_fields (data_quality (config a))))
                                (data_store a))) in
     let fresh_items :=
       Z.of_nat (length (filter (timely fromisoformat current_time
                                   (max_age_hours (data_quality (config a))))
                                (data_store a))) in
     0 <= complete_items <= total ∧ 0 <= fresh_items <= total ∧
     assess_data_quality fromisoformat current_time a =
       fdiv (fadd (fadd (fadd (fadd (f_of_Z 0) (truediv complete_items total))
                              (lit 9 10))
                        (lit 85 100))
                  (truediv fresh_items total))
            (f_of_Z 4)) ∧
  (∀ a : agent float,
     Z.of_nat (length (data_store a)) < 2 ^ 53 →
     PrimFloat.leb 0 (assess_data_quality fromisoformat current_time a) = true ∧
     PrimFloat.leb (assess_data_quality fromisoformat current_time a) 1 = true) ∧
  (∀ (a : agent float) r1 r2,
     data_store a = [r1; r2] →
     complete (required_fields (data_quality (config a))) r1 →
     complete (required_fields (data_quality (config a))) r2 →
     timely fromisoformat current_time (max_age_hours (data_quality (config a))) r1 →
     timely fromisoformat current_time (max_age_hours (data_quality (config a))) r2 →
     assess_data_quality fromisoformat current_time a = 0.9375%float) ∧
  (∀ a : agent Q,
     (0 <= assess_data_quality fromisoformat current_time a <= 1)%Q ∧
     ∀ r1 r2,
       data_store a = [r1; r2] →
       complete (required_fields (data_quality (config a))) r1 →
       complete (required_fields (data_quality (config a))) r2 →
       timely fromisoformat current_time (max_age_hours (data_quality (config a))) r1 →
       timely fromisoformat current_time (max_age_hours (data_quality (config a))) r2 →
       (assess_data_quality fromisoformat current_time a == 9375 # 10000)%Q).
Proof.
  split; [|split; [|split; [|split]]].
  - intros F HF a. apply assess_data_quality_mean.
  - intros F HF a Hstore total complete_items fresh_items.
    subst total complete_items fresh_items.
    pose proof (length_filter (complete (required_fields (data_quality (config a))))
                  (data_store a)).
    pose proof (length_filter (timely fromisoformat current_time
                                 (max_age_hours (data_quality (config a))))
                  (data_store a)).
    split; [lia|]. split; [lia|].
    rewrite assess_data_quality_mean, check_completeness_count,
      check_timeliness_count.
    by destruct (data_store a).
  - intros a. apply assess_data_quality_range.
  - intros a r1 r2. apply assess_data_quality_binary64.
  - intros a.
    destruct (assess_data_quality_exact fromisoformat current_time a)
      as (_ & _ & Hbounds & Htwo).
    split; [exact Hbounds|exact Htwo].
Qed.


Section Multiplier.

Lemma adjust_run_positive (history : list stats) (a : agent Q) :
  (0 < delay_multiplier a)%Q → (0 < delay_multiplier (adjust_run history a))%Q.
Proof.
  revert a. induction history as [|s history IH]; intros a Ha; cbn; [done|].
  apply IH.
  destruct (adjust_strategy_multiplier (set_stats a s)) as [-> | [-> | ->]];
    cbn; [| |done]; by apply Qmult_lt_0_compat.
Qed.

Lemma adjust_run_failed (n : nat) (a : agent Q) :
  delay_multiplier (adjust_run (replicate (S n) one_failed) a)
  = (delay_multiplier (adjust_run (replicate n one_failed) a) * inject_Z 2)%Q.
Proof.
  rewrite replicate_S_end, adjust_run_app. cbn [adjust_run].
  unfold adjust_strategy. cbn. apply try_fallback_api_keeps.
Qed.

Lemma adjust_run_successful (n : nat) (a : agent Q) :
  delay_multiplier (adjust_run (replicate (S n) one_successful) a)
  = (delay_multiplier (adjust_run (replicate n one_successful) a)
     * (inject_Z 8 / inject_Z 10))%Q.
Proof. by rewrite replicate_S_end, adjust_run_app. Qed.

(** After [n] failures in a row the multiplier has grown past [n]. *)
Lemma adjust_run_grows (n : nat) (a : agent Q) :
  (1 <= delay_multiplier a)%Q →
  (inject_Z (Z.of_nat n) + 1
   <= delay_multiplier (adjust_run (replicate n one_failed) a))%Q.
Proof.
  intros Ha. induction n as [|n IH].
  - cbn [replicate adjust_run]. change (inject_Z (Z.of_nat 0)) with 0%Q. lra.
  - rewrite adjust_run_failed, Nat2Z.inj_succ, <- Z.add_1_r, inject_Z_plus.
    assert (0 <= inject_Z (Z.of_nat n))%Q.
    { change 0%Q with (inject_Z 0). rewrite <- Zle_Qle. lia. }
    change (inject_Z 1) with 1%Q. change (inject_Z 2) with 2%Q. lra.
Qed.

(** After [n] successes in a row it has shrunk below [4 / (n + 4)]. *)
Lemma adjust_run_shrinks (n : nat) (a : agent Q) :
  (0 < delay_multiplier a)%Q → (delay_multiplier a <= 1)%Q →
  (delay_multiplier (adjust_run (replicate n one_successful) a)
   * (inject_Z (Z.of_nat n) + 4) <= 4)%Q.
Proof.
  intros Ha0 Ha1. induction n as [|n IH].
  - cbn [replicate adjust_run]. change (inject_Z (Z.of_nat 0)) with 0%Q. lra.
  - rewrite adjust_run_successful, Nat2Z.inj_succ, <- Z.add_1_r, inject_Z_plus.
    pose proof (adjust_run_positive (replicate n one_successful) a Ha0) as Hpos.
    assert (0 <= inject_Z (Z.of_nat n))%Q as Hn.
    { change 0%Q with (inject_Z 0). rewrite <- Zle_Qle. lia. }
    generalize dependent (delay_multiplier (adjust_run (replicate n one_successful) a)).
    generalize dependent (inject_Z (Z.of_nat n)).
    intros m Hm x IH Hx.
    assert (0 <= x * m)%Q as Hxm by (apply Qmult_le_0_compat; lra).
    setoid_replace (inject_Z 8 / inject_Z 10)%Q with (8 # 10)%Q using relation Qeq by done.
    change (inject_Z 1) with 1%Q. lra.
Qed.

(** In exact arithmetic: the multiplier starts at 1; a call of
    [adjust_strategy] multiplies it by 2 or by 0.8 or leaves it, so it
    stays positive whatever the calls; and nothing bounds it: some run of
    calls takes it above any [B], and some run below any positive
    [epsilon]. *)
Lemma delay_multiplier_exact (cfg : config_t Q) :
  delay_multiplier (init cfg) = 1%Q ∧
  (∀ a : agent Q,
     delay_multiplier (adjust_strategy a) = (delay_multiplier a * 2)%Q ∨
     delay_multiplier (adjust_strategy a) = (delay_multiplier a * lit 8 10)%Q ∨
     delay_multiplier (adjust_strategy a) = delay_multiplier a) ∧
  (∀ history, (0 < delay_multiplier (adjust_run history (init cfg)))%Q) ∧
  (∀ B : Q, ∃ history,
     (B < delay_multiplier (adjust_run history (init cfg)))%Q) ∧
  (∀ epsilon : Q, (0 < epsilon)%Q → ∃ history,
     (delay_multiplier (adjust_run history (init cfg)) < epsilon)%Q).
Proof.
  split; [done|].
  split; [intros a; exact (adjust_strategy_multiplier (F:=Q) a)|].
  split; [intros history; by apply adjust_run_positive|]. split.
  - intros B. set (n := Z.to_nat (Qceiling B)).
    exists (replicate n one_failed).
    eapply Qlt_le_trans; [|apply adjust_run_grows; by cbn].
    pose proof (Qle_ceiling B) as HB.
    assert (inject_Z (Qceiling B) <= inject_Z (Z.of_nat n))%Q.
    { rewrite <- Zle_Qle. lia. }
    lra.
  - intros epsilon Heps. set (n := Z.to_nat (Qceiling (4 / epsilon))).
    exists (replicate n one_successful).
    pose proof (adjust_run_shrinks n (init cfg)) as Hshrink.
    pose proof (adjust_run_positive (replicate n one_successful) (init cfg)) as Hpos.
    cbn in Hshrink, Hpos. specialize (Hshrink eq_refl). specialize (Hpos eq_refl).
    assert (inject_Z 1 <= 1)%Q as H1 by done. specialize (Hshrink H1).
    assert (4 / epsilon <= inject_Z (Z.of_nat n))%Q as Hn.
    { eapply Qle_trans; [apply Qle_ceiling|]. rewrite <- Zle_Qle. lia. }
    apply (Qmult_le_compat_r _ _ epsilon) in Hn; [|lra].
    setoid_replace (4 / epsilon * epsilon)%Q with 4%Q using relation Qeq in Hn
      by (field; lra).
    generalize dependent (delay_multiplier (adjust_run (replicate n one_successful) (init cfg))).
    generalize dependent (inject_Z (Z.of_nat n)).
    intros m Hm x Hx Hpos.
    destruct (Qlt_le_dec x epsilon) as [|Hle]; [done|exfalso].
    assert (0 <= m)%Q as Hm0.
    { apply Qnot_lt_le. intros Hneg.
      assert (m * epsilon < 0 * epsilon)%Q by by apply Qmult_lt_compat_r. lra. }
    assert (epsilon * (m + 4) <= x * (m + 4))%Q
      by (apply Qmult_le_compat_r; lra).
    lra.
Qed.

(** *** The multiplier as a binary64 float *)

Lemma adjust_run_failed_binary64 (n : nat) (a : agent float) :
  delay_multiplier (adjust_run (replicate n one_failed) a)
  = Nat.iter n (λ x, x * 2)%float (delay_multiplier a).
Proof.
  induction n as [|n IH]; [done|].
  rewrite replicate_S_end, adjust_run_app, Nat.iter_succ. cbn [adjust_run].
  rewrite <- IH. unfold adjust_strategy. cbn. apply try_fallback_api_keeps.
Qed.

Lemma adjust_run_successful_binary64 (n : nat) (a : agent float) :
  delay_multiplier (adjust_run (replicate n one_successful) a)
  = Nat.iter n (λ x, x * lit 8 10)%float (delay_multiplier a).
Proof.
  induction n as [|n IH]; [done|].
  rewrite replicate_S_end, adjust_run_app, Nat.iter_succ. cbn [adjust_run].
  by rewrite <- IH.
Qed.

Lemma adjust_run_positive_binary64 (history : list stats) (a : agent float) :
  PrimFloat.ltb 0 (delay_multiplier a) = true →
  PrimFloat.ltb 0 (delay_multiplier (adjust_run history a)) = true.
Proof.
  revert a. induction history as [|s history IH]; intros a Ha; cbn; [done|].
  apply IH.
  destruct (adjust_strategy_multiplier (set_stats a s)) as [-> | [-> | ->]];
    cbn [delay_multiplier set_stats]; [| |done].
  - by apply mul_2_positive.
  - by apply mul_08_positive.
Qed.

(** 1024 doublings of 1.0 overflow. *)
Lemma doubling_overflows :
  Nat.iter 1024 (λ x, x * 2)%float 1%float = infinity.
Proof. vm_compute. reflexivity. Qed.

(** 3400 multiplications of 1.0 by 0.8 arrive at [2^-1073], twice the
    smallest positive float, and every further one rounds back to it. *)
Lemma shrinking_stalls (n : nat) :
  Nat.iter (3400 + n) (λ x, x * lit 8 10)%float 1%float = 0x1p-1073%float.
Proof.
  induction n as [|n IH].
  - vm_compute. reflexivity.
  - rewrite Nat.add_succ_r, Nat.iter_succ, IH. vm_compute. reflexivity.
Qed.

(** No float lies strictly between 0 and [2^-1074]. *)
Lemma nothing_below_smallest_float (x : float) :
  PrimFloat.ltb 0 x = true → PrimFloat.ltb x 0x1p-1074 = false.
Proof.
  rewrite !ltb_spec. pose proof (Prim2SF_valid x) as Hvalid.
  change (Prim2SF 0) with (S754_zero false).
  change (Prim2SF 0x1p-1074) with (S754_finite false 1 (-1074)).
  destruct (Prim2SF x) as [s|s| |s m e]; try done.
  - by destruct s.
  - destruct s; [done|]. intros _.
    unfold SFltb, SFcompare.
    cbn in Hvalid. apply andb_prop in Hvalid as [Hcanon _].
    unfold canonical_mantissa, fexp, SpecFloat.emin in Hcanon.
    apply Z.eqb_eq in Hcanon.
    assert (-1074 <= e) as He by (unfold prec, emax in Hcanon; lia).
    destruct (Z.compare_spec e (-1074)) as [->| |]; [|lia|done].
    change (PosDef.Pos.compare_cont Eq) with Pos.compare.
    destruct (Pos.compare_spec m 1); [done|lia|done].
Qed.

End Multiplier.

(** C9, as the code has it.  The multiplier starts at 1.0 and a call of
    [adjust_strategy] multiplies it by 2 or by 0.8 or leaves it; nothing in
    the code clamps it.  As a binary64 float it stays positive whatever
    the calls; some run of calls takes it above any [B] below infinity and
    some run below any [epsilon] above [2^-1073], where a run of successes
    stalls; no run takes it below [2^-1074].  In exact arithmetic it stays
    positive, some run takes it above any [B], and some run below any
    positive [epsilon]. *)
Theorem delay_multiplier_unclamped :
  (∀ (F : Type) (HF : PyFloat F) (cfg : config_t F),
     delay_multiplier (init cfg) = f_of_Z 1) ∧
  (∀ (F : Type) (HF : PyFloat F) (a : agent F),
     delay_multiplier (adjust_strategy a) = fmul (delay_multiplier a) (f_of_Z 2) ∨
     delay_multiplier (adjust_strategy a) = fmul (delay_multiplier a) (lit 8 10) ∨
     delay_multiplier (adjust_strategy a) = delay_multiplier a) ∧
  (∀ cfg : config_t Q,
     (∀ history, (0 < delay_multiplier (adjust_run history (init cfg)))%Q) ∧
     (∀ B : Q, ∃ history,
        (B < delay_multiplier (adjust_run history (init cfg)))%Q) ∧
     (∀ epsilon : Q, (0 < epsilon)%Q → ∃ history,
        (delay_multiplier (adjust_run history (init cfg)) < epsilon)%Q)) ∧
  (∀ cfg : config_t float,
     (∀ history,
        PrimFloat.ltb 0 (delay_multiplier (adjust_run history (init cfg))) = true) ∧
     (∀ history,
        PrimFloat.ltb (delay_multiplier (adjust_run history (init cfg))) 0x1p-1074
        = false) ∧
     (∀ B : float, PrimFloat.ltb B infinity = true → ∃ history,
        PrimFloat.ltb B (delay_multiplier (adjust_run history (init cfg))) = true) ∧
     (∀ epsilon : float, PrimFloat.ltb 0x1p-1073 epsilon = true → ∃ history,
        PrimFloat.ltb (delay_multiplier (adjust_run history (init cfg))) epsilon
        = true) ∧
     (∀ n : nat,
        delay_multiplier (adjust_run (replicate (3400 + n) one_successful) (init cfg))
        = 0x1p-1073%float)).
Proof.
  split; [done|]. split; [intros F HF a; apply adjust_strategy_multiplier|].
  split.
  - intros cfg.
    destruct (delay_multiplier_exact cfg) as (_ & _ & Hpos & Hup & Hdown). done.
  - intros cfg.
    assert (∀ history,
              PrimFloat.ltb 0 (delay_multiplier (adjust_run history (init cfg)))
              = true) as Hpos
      by (intros history; by apply adjust_run_positive_binary64).
    split; [exact Hpos|]. split; [|split; [|split]].
    + intros history. apply nothing_below_smallest_float, Hpos.
    + intros B HB. exists (replicate 1024 one_failed).
      rewrite adjust_run_failed_binary64.
      change (delay_multiplier (init cfg)) with 1%float.
      by rewrite doubling_overflows.
    + intros epsilon Heps. exists (replicate (3400 + 0) one_successful).
      rewrite adjust_run_successful_binary64.
      change (delay_multiplier (init cfg)) with 1%float.
      by rewrite shrinking_stalls.
    + intros n. rewrite adjust_run_successful_binary64.
      change (delay_multiplier (init cfg)) with 1%float.
      apply shrinking_stalls.
Qed.

Section Delay.

(** Without a [base_delay] key at the top level of the configuration the
    delay starts from 1.0, whatever [agent_settings] says. *)
Lemma respectful_delay_default {F : Type} `{PyFloat F} (a : agent F) (jitter : F) :
  base_delay (config a) = None →
  respectful_delay a jitter = fmul (fmul (f_of_Z 1) (delay_multiplier a)) jitter.
Proof. unfold respectful_delay. by intros ->. Qed.

(** With that base of 1.0, a multiplier of 2 and a jitter between 0.5
    and 1.5, the delay is between 1 and 3 (exact arithmetic). *)
Lemma respectful_delay_bounds (a : agent Q) (jitter : Q) :
  base_delay (config a) = None → delay_multiplier a = 2%Q →
  (1 # 2 <= jitter <= 3 # 2)%Q →
  (1 <= respectful_delay a jitter <= 3)%Q.
Proof.
  intros Hbase Hm Hj. rewrite respectful_delay_default by done.
  rewrite Hm. cbn. change (inject_Z 1) with 1%Q. lra.
Qed.

(** C7.  A configuration that sets [agent_settings.base_delay] to 5 and
    has no [base_delay] at the top level: with multiplier 1.0 and jitter
    1.0 the agent sleeps 1.0 seconds, not 5.0. *)
Theorem respectful_delay_ignores_agent_settings :
  let a := init (sample_config (F:=float) 3) in
  agent_base_delay (agent_settings (config a)) = 5%float ∧
  delay_multiplier a = 1%float ∧
  respectful_delay a 1%float = 1%float ∧
  respectful_delay a 1%float ≠ (5 * 1 * 1)%float.
Proof.
  cbn. repeat split. vm_compute. discriminate.
Qed.

End Delay.

Section Loop.
Context {F : Type} `{PyFloat F}.
Variable fromisoformat : string → option Z.
Variable time_sleep : F → result unit.

Lemma adjust_strategy_keeps (a : agent F) :
  config (adjust_strategy a) = config a ∧
  collection_stats (adjust_strategy a) = collection_stats a.
Proof.
  unfold adjust_strategy. destruct (flt _ _).
  - destruct (try_fallback_api_keeps
                (set_delay_multiplier a (fmul (delay_multiplier a) (f_of_Z 2))))
      as (-> & _ & -> & _). done.
  - by destruct (flt _ _).
Qed.

Lemma make_api_request_config (o : fetch_outcome F) (a : agent F) :
  config (make_api_request o a).1 = config a.
Proof.
  destruct o as [e|status_code json]; cbn; [done|].
  destruct (status_code =? 200).
  - destruct json as [[| | | | | |raw_data]|]; try done.
    destruct (py_len _); [|done]. by destruct (save_raw_data _).
  - by destruct (status_code =? 403), (status_code =? 429), (status_code =? 401).
Qed.

Lemma validate_and_store_config (a : agent F) data :
  config (validate_and_store a data) = config a.
Proof. unfold validate_and_store. by destruct (validate_data a data). Qed.




(** The counters after an iteration are those [make_api_request] leaves:
    neither the strategy adjustment before it nor validation and storage
    after it touch them. *)
Lemma iteration_stats (w : world F) (a a' : agent F) (d : F) :
  iteration fromisoformat time_sleep w a = Ok (a', d) →
  ∃ a1, collection_stats a1 = collection_stats a ∧
        collection_stats a' = collection_stats (make_api_request (fetch w) a1).1 ∧
        config a' = config a.
Proof.
  unfold iteration.
  set (a1 := if flt _ _ then adjust_strategy a else a).
  assert (config a1 = config a ∧ collection_stats a1 = collection_stats a)
    as [Hcfg Hstats].
  { subst a1. destruct (flt _ _); [apply adjust_strategy_keeps|done]. }
  pose proof (make_api_request_config (fetch w) a1) as Hcfg2.
  intros Hit. exists a1. split; [done|]. revert Hit.
  destruct (make_api_request (fetch w) a1) as [a2 data]. cbn in Hcfg2. cbn [fst].
  assert (∀ a3, a3 = a2 ∨ (∃ p, a3 = validate_and_store a2 p) →
            collection_stats a3 = collection_stats a2 ∧ config a3 = config a)
    as Hkeep.
  { intros a3 [->|[p ->]].
    - by rewrite Hcfg2, Hcfg.
    - by rewrite validate_and_store_stats, validate_and_store_config, Hcfg2, Hcfg. }
  destruct data as [raw_data|]; cbn.
  - destruct (negb _); cbn.
    + destruct (process_data _ _) as [p|e]; cbn; [|done].
      destruct (time_sleep _); cbn; [|done].
      intros [= <- _]. apply Hkeep. eauto.
    + destruct (time_sleep _); cbn; [|done].
      intros [= <- _]. apply Hkeep. eauto.
  - destruct (time_sleep _); cbn; [|done].
    intros [= <- _]. apply Hkeep. eauto.
Qed.

(** One iteration: exactly one request is counted and the configuration
    stays. *)
Lemma iteration_counts_one (w : world F) (a a' : agent F) (d : F) :
  iteration fromisoformat time_sleep w a = Ok (a', d) →
  total_requests (collection_stats a') = total_requests (collection_stats a) + 1 ∧
  config a' = config a.
Proof.
  intros Hit. apply iteration_stats in Hit as (a1 & Hstats & -> & Hcfg).
  split; [|done].
  pose proof (make_api_request_balance (fetch w) a1) as [Htotal _].
  cbn zeta in Htotal. by rewrite Htotal, Hstats.
Qed.

(** One iteration keeps the balance of the counters, except on a response
    that is counted twice. *)
Lemma iteration_balance (w : world F) (a a' : agent F) (d : F) :
  iteration fromisoformat time_sleep w a = Ok (a', d) →
  counted_twice (fetch w) = false →
  balanced (collection_stats a) → balanced (collection_stats a').
Proof.
  intros Hit Hw. apply iteration_stats in Hit as (a1 & Hstats & -> & _).
  pose proof (make_api_request_balance (fetch w) a1) as [_ Hbalance].
  cbn zeta in Hbalance. rewrite Hw, Hstats in Hbalance.
  unfold balanced. lia.
Qed.





End Loop.

(** ** The theorems on the sample data *)

Section OnSamples.

Example literals_binary64 :
  (lit (F:=float) 5 10, lit (F:=float) 8 10, lit (F:=float) 9 10,
   lit (F:=float) 85 100)
  = (0.5, 0x1.999999999999ap-1, 0x1.ccccccccccccdp-1, 0x1.b333333333333p-1)%float.
Proof. reflexivity. Qed.

Lemma get_success_rate_spec_witness :
  get_success_rate (sample_agent (F:=float) 3 [] no_requests) = 1%float ∧
  get_success_rate (sample_agent (F:=float) 3 [] seven_of_ten) = truediv 7 10.
Proof.
  split.
  - exact (proj1 (get_success_rate_spec (sample_agent 3 [] no_requests)) eq_refl).
  - exact (proj2 (get_success_rate_spec (sample_agent 3 [] seven_of_ten)) eq_refl).
Defined.

Lemma adjust_strategy_cases_witness :
  (delay_multiplier (adjust_strategy (sample_agent (F:=float) 3 [] one_failed))
   = 2%float ∧
   current_api (adjust_strategy (sample_agent (F:=float) 3 [] one_failed))
   = "https://proxy.royaleapi.dev/v1"%string) ∧
  delay_multiplier (adjust_strategy (sample_agent (F:=float) 3 [] one_successful))
  = (1 * lit 8 10)%float ∧
  adjust_strategy (sample_agent (F:=float) 3 [] seven_of_ten)
  = sample_agent 3 [] seven_of_ten.
Proof.
  pose proof (adjust_strategy_cases (sample_agent (F:=float) 3 [] one_failed))
    as [Hlow _].
  pose proof (adjust_strategy_cases (sample_agent (F:=float) 3 [] one_successful))
    as [_ [Hhigh _]].
  pose proof (adjust_strategy_cases (sample_agent (F:=float) 3 [] seven_of_ten))
    as [_ [_ Hmid]].
  split; [|split].
  - destruct (Hlow eq_refl) as (Hm & Hswitch & _). split; [exact Hm|].
    exact (Hswitch _ [] eq_refl ltac:(discriminate)).
  - exact (f_equal delay_multiplier (Hhigh eq_refl eq_refl)).
  - exact (Hmid eq_refl eq_refl).
Defined.

(** Three cycles that each get a 200 response with an unreadable body:
    at the end of the loop each counter stands at 3. *)
Example collect_data_counts_twice_sample :
  (λ r, match r with
        | Some (Ok (a, _)) => Some (collection_stats a)
        | _ => None
        end)
    (collect_data (F:=float) sample_fromisoformat sample_sleep 10
       (λ _, sample_world (Responded 200 None)) 0 (init (sample_config 3)) [])
  = Some {| total_requests := 3; successful_requests := 3; failed_requests := 3 |}.
Proof. vm_compute. reflexivity. Qed.

(** A record with a cost of 0 has both required fields, neither of them
    empty, and the batch is not stored. *)
Lemma zero_cost_batch_discarded :
  let a := init (sample_config (F:=float) 3) in
  let batch := [knight_record; free_record] in
  (∀ item field, item ∈ batch →
     field ∈ required_fields (data_quality (config a)) →
     ∃ v, item !! field = Some v ∧ empty_value v = false) ∧
  data_store (validate_and_store a (Some batch)) = [] ∧
  data_store (validate_and_store a (Some batch)) ≠ data_store a ++ batch.
Proof.
  cbn zeta. split; [|split; [reflexivity|discriminate]].
  intros item field Hitem Hfield.
  repeat (apply elem_of_cons in Hitem as [->|Hitem]);
    [| |by apply elem_of_nil in Hitem];
    (repeat (apply elem_of_cons in Hfield as [->|Hfield]);
     [| |by apply elem_of_nil in Hfield]);
    eexists; (split; [reflexivity|reflexivity]).
Qed.

Lemma validate_and_store_all_or_nothing_witness :
  let a := init (sample_config (F:=float) 3) in
  data_store (validate_and_store a (Some [knight_record; mirror_record]))
  = data_store a ∧
  data_store (validate_and_store a (Some [knight_record; knight_record]))
  = data_store a ++ [knight_record; knight_record].
Proof.
  cbn zeta. split.
  - apply (validate_and_store_all_or_nothing
             (init (sample_config 3)) [knight_record; mirror_record]).
    exists mirror_record, "elixir_cost"%string.
    split; [apply elem_of_cons; right; apply elem_of_cons; by left|].
    split; [apply elem_of_cons; right; apply elem_of_cons; by left|].
    intros v Hv. vm_compute in Hv. injection Hv as <-. reflexivity.
  - apply (validate_and_store_all_or_nothing
             (init (sample_config 3)) [knight_record; knight_record]).
    intros item field Hitem Hfield.
    repeat (apply elem_of_cons in Hitem as [->|Hitem]);
      [| |by apply elem_of_nil in Hitem];
      (repeat (apply elem_of_cons in Hfield as [->|Hfield]);
       [| |by apply elem_of_nil in Hfield]);
      eexists; (split; [reflexivity|reflexivity]).
Defined.

Lemma falsy_required_field_rejects_batch_witness :
  mirror_record (F:=float) !! "elixir_cost"%string = Some (VInt 0) ∧
  validate_data (init (sample_config (F:=float) 3))
                (Some [knight_record; mirror_record]) = false ∧
  data_store (validate_and_store (init (sample_config (F:=float) 3))
                (Some [knight_record; mirror_record])) = [].
Proof.
  pose proof (falsy_required_field_rejects_batch (F:=float))
    as (Hdefault & _ & _ & _ & Hreject).
  split.
  - exact (Hdefault "2024-01-01T01:00:00"%string mirror eq_refl).
  - apply (Hreject (init (sample_config 3)) [knight_record; mirror_record]
                   mirror_record "elixir_cost"%string (VInt 0)).
    + apply elem_of_cons; right; apply elem_of_cons; by left.
    + apply elem_of_cons; right; apply elem_of_cons; by left.
    + reflexivity.
    + reflexivity.
Defined.

(** Five records, one of them timely: the one collected exactly 24 hours
    ago.  The older one and the three without a readable timestamp count
    in the total only. *)
Example check_timeliness_sample :
  check_timeliness (F:=float) sample_fromisoformat sample_clock
    (sample_agent 3 [knight_record; stale_record; undated_record;
                     misdated_record; dateless_record] no_requests)
  = truediv 1 5.
Proof. reflexivity. Qed.

Lemma knight_record_complete {F : Type} `{PyFloat F} :
  complete (F:=F) ["name"; "elixir_cost"]%string knight_record.
Proof.
  intros field Hfield.
  repeat (apply elem_of_cons in Hfield as [->|Hfield]);
    [| |by apply elem_of_nil in Hfield];
    eexists; (split; [reflexivity|reflexivity]).
Defined.

Lemma knight_record_timely {F : Type} `{PyFloat F} :
  fle (fdiv (truediv (sample_clock - 3600000000) 1000000) (f_of_Z 3600))
      (f_of_Z 24) = true →
  timely (F:=F) sample_fromisoformat sample_clock (f_of_Z 24) knight_record.
Proof. intros Hage. by exists "2024-01-01T01:00:00"%string, 3600000000. Defined.

Lemma assess_data_quality_spec_witness :
  let a := sample_agent (F:=float) 3 [knight_record; knight_record] no_requests in
  (PrimFloat.leb 0 (assess_data_quality sample_fromisoformat sample_clock a) = true ∧
   PrimFloat.leb (assess_data_quality sample_fromisoformat sample_clock a) 1 = true) ∧
  assess_data_quality sample_fromisoformat sample_clock a = 0.9375%float ∧
  (assess_data_quality (F:=Q) sample_fromisoformat sample_clock
     (sample_agent 3 [knight_record; knight_record] no_requests)
   == 9375 # 10000)%Q.
Proof.
  intros a.
  destruct (assess_data_quality_spec sample_fromisoformat sample_clock)
    as (_ & _ & Hrange & Hbinary64 & Hexact).
  split; [|split].
  - apply (Hrange a). reflexivity.
  - apply (Hbinary64 a knight_record knight_record eq_refl);
      first [apply knight_record_complete | by apply knight_record_timely].
  - apply (proj2 (Hexact (sample_agent 3 [knight_record; knight_record] no_requests))
             knight_record knight_record eq_refl);
      first [apply knight_record_complete | by apply knight_record_timely].
Defined.

(** [2^-1074] is positive, and no run of calls takes the multiplier
    below it. *)
Lemma no_multiplier_below_smallest_float :
  PrimFloat.ltb 0 0x1p-1074 = true ∧
  ¬ ∃ history,
      PrimFloat.ltb
        (delay_multiplier (adjust_run history (init (sample_config (F:=float) 3))))
        0x1p-1074
      = true.
Proof.
  split; [reflexivity|]. intros [history Hbelow].
  rewrite nothing_below_smallest_float in Hbelow; [discriminate|].
  by apply adjust_run_positive_binary64.
Qed.

Lemma delay_multiplier_unclamped_witness :
  ((0 < 1 # 1000)%Q ∧
   ∃ history,
     (delay_multiplier (adjust_run history (init (sample_config (F:=Q) 3)))
      < 1 # 1000)%Q) ∧
  (PrimFloat.ltb 0x1p1000 infinity = true ∧
   ∃ history,
     PrimFloat.ltb 0x1p1000
       (delay_multiplier (adjust_run history (init (sample_config (F:=float) 3))))
     = true) ∧
  (PrimFloat.ltb 0x1p-1073 0x1p-1000 = true ∧
   ∃ history,
     PrimFloat.ltb
       (delay_multiplier (adjust_run history (init (sample_config (F:=float) 3))))
       0x1p-1000
     = true).
Proof.
  destruct delay_multiplier_unclamped as (_ & _ & Hexact & Hbinary64).
  destruct (Hexact (sample_config 3)) as (_ & _ & Hdown).
  destruct (Hbinary64 (sample_config 3)) as (_ & _ & Hup64 & Hdown64 & _).
  split; [|split].
  - split; [reflexivity|]. exact (Hdown (1 # 1000)%Q eq_refl).
  - split; [reflexivity|]. exact (Hup64 0x1p1000%float eq_refl).
  - split; [reflexivity|]. exact (Hdown64 0x1p-1000%float eq_refl).
Defined.



End OnSamples.

(** ** The fetch cycle and the loop, further *)

Section CycleOutcome.
Context {F : Type} `{PyFloat F}.

(** X1. What one call of [make_api_request] does and returns.  It counts
    the request; it counts a success exactly on status 200; it counts a
    failure exactly when it returns [None]; what it returns otherwise is the
    object in the body of a 200 response; and it touches neither the
    configuration, the data store, the delay multiplier nor the
    endpoint. *)
Theorem make_api_request_outcome (o : fetch_outcome F) (a : agent F) :
  let s := collection_stats a in
  let a' := (make_api_request o a).1 in
  let data := (make_api_request o a).2 in
  let s' := collection_stats a' in
  total_requests s' = total_requests s + 1 ∧
  successful_requests s' = successful_requests s +
    match o with
    | Responded status_code _ => if status_code =? 200 then 1 else 0
    | Failed _ => 0
    end ∧
  failed_requests s' = failed_requests s +
    match data with
    | Some _ => 0
    | None => 1
    end ∧
  (∀ raw_data, data = Some raw_data → o = Responded 200 (Some (VDict raw_data))) ∧
  config a' = config a ∧ data_store a' = data_store a ∧
  delay_multiplier a' = delay_multiplier a ∧ current_api a' = current_api a.
Proof.
  destruct o as [e|status_code json]; cbn; [repeat split; (lia || done)|].
  destruct (Z.eqb_spec status_code 200) as [->|Hne]; cbn.
  - destruct json as [[| | | | | |raw_data]|]; cbn;
      try (repeat split; (lia || done)).
    destruct (py_len _); cbn; [|repeat split; (lia || done)].
    destruct (save_raw_data _); cbn; repeat split; try (lia || done).
    by intros ? [= ->].
  - destruct (status_code =? 403), (status_code =? 429), (status_code =? 401);
      cbn; repeat split; (lia || done).
Qed.

Lemma make_api_request_within (o : fetch_outcome F) (a : agent F) :
  within_total (collection_stats a) →
  within_total (collection_stats (make_api_request o a).1).
Proof.
  unfold within_total.
  destruct o as [e|status_code json]; cbn; [lia|].
  destruct (status_code =? 200); cbn.
  - destruct json as [[| | | | | |raw_data]|]; cbn; try lia.
    destruct (py_len _); cbn; [|lia]. destruct (save_raw_data _); cbn; lia.
  - destruct (status_code =? 403), (status_code =? 429), (status_code =? 401);
      cbn; lia.
Qed.

Lemma make_api_request_frame (o : fetch_outcome F) (a : agent F) :
  data_store (make_api_request o a).1 = data_store a ∧
  delay_multiplier (make_api_request o a).1 = delay_multiplier a ∧
  current_api (make_api_request o a).1 = current_api a.
Proof.
  destruct o as [e|status_code json]; cbn; [done|].
  destruct (status_code =? 200).
  - destruct json as [[| | | | | |raw_data]|]; try done.
    destruct (py_len _); [|done]. by destruct (save_raw_data _).
  - by destruct (status_code =? 403), (status_code =? 429), (status_code =? 401).
Qed.

End CycleOutcome.

Section LoopInvariants.
Context {F : Type} `{PyFloat F}.
Variable fromisoformat : string → option Z.
Variable time_sleep : F → result unit.

(** The steps of an iteration that completes. *)
Lemma iteration_steps (w : world F) (a a' : agent F) (d : F) :
  iteration fromisoformat time_sleep w a = Ok (a', d) →
  let a1 := if flt (get_success_rate a) (lit 8 10) then adjust_strategy a else a in
  let a2 := (make_api_request (fetch w) a1).1 in
  (a' = a2 ∨
   ∃ raw_data processed_data,
     (make_api_request (fetch w) a1).2 = Some raw_data ∧
     process_data (stamp w) raw_data = Ok processed_data ∧
     a' = validate_and_store a2 processed_data) ∧
  d = respectful_delay a' (jitter w).
Proof.
  unfold iteration. cbn zeta.
  destruct (make_api_request _ _) as [a2 data]. cbn [fst snd].
  destruct data as [raw_data|]; cbn.
  - destruct (negb _); cbn.
    + destruct (process_data _ _) as [p|e] eqn:Hp; cbn; [|done].
      destruct (time_sleep _); cbn; [|done].
      intros [= <- <-]. split; [|done]. right. eauto.
    + destruct (time_sleep _); cbn; [|done]. intros [= <- <-]. auto.
  - destruct (time_sleep _); cbn; [|done]. intros [= <- <-]. auto.
Qed.

Lemma adjust_strategy_store (a : agent F) :
  data_store (adjust_strategy a) = data_store a.
Proof.
  unfold adjust_strategy. destruct (flt _ _).
  - by destruct (try_fallback_api_keeps
                   (set_delay_multiplier a (fmul (delay_multiplier a) (f_of_Z 2))))
      as (_ & -> & _).
  - by destruct (flt _ _).
Qed.

Lemma validate_and_store_added (a : agent F) data :
  ∃ added, data_store (validate_and_store a data) = data_store a ++ added ∧
    Forall (complete (required_fields (data_quality (config a)))) added ∧
    delay_multiplier (validate_and_store a data) = delay_multiplier a ∧
    current_api (validate_and_store a data) = current_api a.
Proof.
  unfold validate_and_store. destruct (validate_data a data) eqn:Hv.
  - destruct data as [batch|]; [|done]. exists batch. split; [done|]. split; [|done].
    apply validate_data_true in Hv as [_ Hall].
    apply Forall_forall. intros item Hitem field Hfield.
    apply field_ok_true. by apply Hall.
  - exists []. by rewrite app_nil_r.
Qed.

(** One iteration appends to the store, and what it appends is complete. *)
Lemma iteration_store (w : world F) (a a' : agent F) (d : F) :
  iteration fromisoformat time_sleep w a = Ok (a', d) →
  ∃ added, data_store a' = data_store a ++ added ∧
    Forall (complete (required_fields (data_quality (config a)))) added.
Proof.
  intros Hit. pose proof (iteration_steps _ _ _ _ Hit) as [Hsteps _].
  cbn zeta in Hsteps.
  set (a1 := if flt _ _ then adjust_strategy a else a) in *.
  assert (config a1 = config a ∧ data_store a1 = data_store a) as [Hcfg Hstore].
  { subst a1. destruct (flt _ _); [|done].
    split; [apply adjust_strategy_keeps|apply adjust_strategy_store]. }
  pose proof (make_api_request_frame (fetch w) a1) as (Hstore2 & _).
  pose proof (make_api_request_config (fetch w) a1) as Hcfg2.
  destruct Hsteps as [->|(raw_data & p & _ & _ & ->)].
  - exists []. rewrite app_nil_r. split; [congruence|done].
  - destruct (validate_and_store_added (make_api_request (fetch w) a1).1 p)
      as (added & -> & Hadded & _).
    exists added. split; [congruence|]. by rewrite <- Hcfg, <- Hcfg2.
Qed.

Lemma collect_data_store (env : nat → world F) (fuel i : nat)
    (a a' : agent F) (slept slept' : list F) :
  collect_data fromisoformat time_sleep fuel env i a slept = Some (Ok (a', slept')) →
  config a' = config a ∧
  ∃ added, data_store a' = data_store a ++ added ∧
    Forall (complete (required_fields (data_quality (config a)))) added.
Proof.
  revert i a slept. induction fuel as [|fuel IH]; intros i a slept; cbn; [done|].
  destruct (collection_complete a).
  { intros [= <- <-]. split; [done|]. exists []. by rewrite app_nil_r. }
  destruct (iteration fromisoformat time_sleep (env i) a) as [[a1 d]|e] eqn:Hit; [|done].
  intros Hrun. apply IH in Hrun as (Hcfg & added2 & -> & Hadded2).
  pose proof (iteration_counts_one _ _ _ _ _ _ Hit) as [_ Hcfg1].
  apply iteration_store in Hit as (added1 & -> & Hadded1).
  split; [congruence|]. exists (added1 ++ added2).
  rewrite <- app_assoc. split; [done|]. apply Forall_app. split; [done|].
  by rewrite <- Hcfg1.
Qed.

(** X4. The loop only ever appends to the data store, and only complete
    records: when a run ends normally, from whatever state it started, the
    store is the store at the start followed by records that each hold a
    true value for every required field; nothing is removed, replaced or
    reordered, and the configuration is the same. *)
Theorem collect_data_appends (env : nat → world F) (fuel i : nat)
    (a a' : agent F) (slept slept' : list F) :
  collect_data fromisoformat time_sleep fuel env i a slept = Some (Ok (a', slept')) →
  config a' = config a ∧
  ∃ added, data_store a' = data_store a ++ added ∧
    Forall (complete (required_fields (data_quality (config a)))) added.
Proof. apply collect_data_store. Qed.

Lemma collect_data_complete_store (cfg : config_t F) (env : nat → world F)
    (fuel : nat) (a' : agent F) (slept : list F) :
  collect_data fromisoformat time_sleep fuel env 0 (init cfg) [] = Some (Ok (a', slept)) →
  Forall (complete (required_fields (data_quality cfg))) (data_store a') ∧
  check_completeness a' =
    match data_store a' with
    | [] => f_of_Z 0
    | _ :: _ => let n := Z.of_nat (length (data_store a')) in truediv n n
    end.
Proof.
  intros Hrun. apply collect_data_store in Hrun as (Hcfg & added & Hstore & Hadded).
  cbn in Hstore, Hadded, Hcfg. subst added.
  split; [done|]. rewrite check_completeness_count, Hcfg.
  destruct (data_store a') as [|item0 rest] eqn:Hs; [done|].
  cbn zeta. do 3 f_equal. clear Hs.
  induction Hadded as [|item l Hitem Hl IH]; [done|].
  by rewrite filter_cons_True, IH.
Qed.

Lemma collect_data_balance_from (env : nat → world F) (fuel i : nat)
    (a a' : agent F) (slept slept' : list F) :
  collect_data fromisoformat time_sleep fuel env i a slept = Some (Ok (a', slept')) →
  ∃ n, length slept' = (length slept + n)%nat ∧
    let s := collection_stats a in
    let s' := collection_stats a' in
    successful_requests s' + failed_requests s' - total_requests s'
    = successful_requests s + failed_requests s - total_requests s
      + Z.of_nat (length (twice_counted env i n)).
Proof.
  revert i a slept. induction fuel as [|fuel IH]; intros i a slept; cbn; [done|].
  destruct (collection_complete a).
  { intros [= <- <-]. exists 0%nat. unfold twice_counted. cbn. split; lia. }
  destruct (iteration fromisoformat time_sleep (env i) a) as [[a1 d]|e] eqn:Hit; [|done].
  intros Hrun. apply IH in Hrun as (n & Hlen & Hbal).
  rewrite length_app in Hlen. cbn in Hlen.
  exists (S n). split; [lia|]. cbn zeta in *. rewrite Hbal.
  apply iteration_stats in Hit as (a0 & Hstats & -> & _).
  pose proof (make_api_request_balance (fetch (env i)) a0) as [_ Hone].
  cbn zeta in Hone. rewrite Hone, Hstats.
  unfold twice_counted. cbn [seq].
  destruct (counted_twice (fetch (env i))) eqn:Hc.
  - rewrite filter_cons_True by done. cbn [length]. lia.
  - rewrite filter_cons_False by congruence. lia.
Qed.

(** X2. The counters at the end of the loop.  When a run from a fresh
    agent ends normally, the successes and failures counted exceed the
    requests counted by exactly the number of iterations whose 200 response
    could not be read through; so the three counters add up if and only if
    there was no such response, and they do when none of the responses is
    of that kind. *)
Theorem collect_data_imbalance (cfg : config_t F) (env : nat → world F)
    (fuel : nat) (a' : agent F) (slept : list F) :
  collect_data fromisoformat time_sleep fuel env 0 (init cfg) [] = Some (Ok (a', slept)) →
  let s := collection_stats a' in
  successful_requests s + failed_requests s - total_requests s
  = Z.of_nat (length (twice_counted env 0 (length slept))) ∧
  ((∀ j, (j < length slept)%nat → counted_twice (fetch (env j)) = false) →
   balanced s).
Proof.
  intros Hrun. apply collect_data_balance_from in Hrun as (n & Hlen & Hbal).
  cbn in Hlen, Hbal. subst n. cbn zeta. split; [lia|].
  intros Hnone. unfold balanced.
  assert (twice_counted env 0 (length slept) = []) as Hnil;
    [|rewrite Hnil in Hbal; cbn in Hbal; lia].
  unfold twice_counted.
  destruct (filter _ _) as [|j rest] eqn:Hfilter; [done|].
  assert (j ∈ j :: rest) as Hj by apply elem_of_cons, or_introl, eq_refl.
  rewrite <- Hfilter in Hj. apply list_elem_of_filter in Hj as [Hc Hj].
  apply elem_of_seq in Hj. rewrite Hnone in Hc by lia. done.
Qed.

Lemma collect_data_within (env : nat → world F) (fuel i : nat)
    (a a' : agent F) (slept slept' : list F) :
  collect_data fromisoformat time_sleep fuel env i a slept = Some (Ok (a', slept')) →
  within_total (collection_stats a) → within_total (collection_stats a').
Proof.
  revert i a slept. induction fuel as [|fuel IH]; intros i a slept; cbn; [done|].
  destruct (collection_complete a); [by intros [= <- <-]|].
  destruct (iteration fromisoformat time_sleep (env i) a) as [[a1 d]|e] eqn:Hit; [|done].
  intros Hrun Ha. apply (IH _ _ _ Hrun).
  apply iteration_stats in Hit as (a0 & Hstats & -> & _).
  apply make_api_request_within. by rewrite Hstats.
Qed.

(** X15. The quality score has no part in the collection.  [collect_data]
    computes [assess_data_quality] at the top of every iteration and drops
    the result: two runs that see the same responses, item timestamps and
    jitter end in the same state and sleep the same durations, whatever the
    clock shows at the assessments and however timestamps parse. *)
Theorem collect_data_ignores_quality (fromisoformat' : string → option Z)
    (env env' : nat → world F) (fuel i : nat) (a : agent F) (slept : list F) :
  (∀ j, fetch (env j) = fetch (env' j) ∧ stamp (env j) = stamp (env' j) ∧
        jitter (env j) = jitter (env' j)) →
  collect_data fromisoformat time_sleep fuel env i a slept
  = collect_data fromisoformat' time_sleep fuel env' i a slept.
Proof.
  intros Henv. revert i a slept.
  induction fuel as [|fuel IH]; intros i a slept; cbn; [done|].
  destruct (collection_complete a); [done|].
  destruct (Henv i) as (Hfetch & Hstamp & Hjitter).
  assert (iteration fromisoformat time_sleep (env i) a = iteration fromisoformat' time_sleep (env' i) a)
    as ->.
  { unfold iteration. cbn zeta. by rewrite Hfetch, Hstamp, Hjitter. }
  destruct (iteration fromisoformat' time_sleep (env' i) a) as [[a1 d]|e]; [apply IH|done].
Qed.

End LoopInvariants.

Lemma get_success_rate_exact_bounds (a : agent Q) :
  within_total (collection_stats a) → (0 <= get_success_rate a <= 1)%Q.
Proof.
  intros [[Hs0 Hst] _]. unfold get_success_rate.
  destruct (Z.eqb_spec (total_requests (collection_stats a)) 0) as [|Hne].
  { cbn. change (inject_Z 1) with 1%Q. lra. }
  unfold truediv. cbn.
  assert (0 < inject_Z (total_requests (collection_stats a)))%Q as Hpos.
  { change 0%Q with (inject_Z 0). rewrite <- Zlt_Qlt. lia. }
  assert (0 <= inject_Z (successful_requests (collection_stats a)))%Q as Hs.
  { change 0%Q with (inject_Z 0). rewrite <- Zle_Qle. lia. }
  assert (inject_Z (successful_requests (collection_stats a))
          <= inject_Z (total_requests (collection_stats a)))%Q as Hle.
  { rewrite <- Zle_Qle. lia. }
  split.
  - apply Qle_shift_div_l; [done|]. lra.
  - apply Qle_shift_div_r; [done|]. lra.
Qed.

(** X3. Neither outcome counter overtakes the request counter, double
    counting or not: [make_api_request] keeps
    [0 <= successful_requests <= total_requests] and
    [0 <= failed_requests <= total_requests], so both hold when a run from
    a fresh agent ends; and in every such state the success rate, in exact
    arithmetic, lies between 0 and 1. *)
Theorem collect_data_success_rate_bounds :
  (∀ (F : Type) (HF : PyFloat F) (o : fetch_outcome F) (a : agent F),
     within_total (collection_stats a) →
     within_total (collection_stats (make_api_request o a).1)) ∧
  (∀ (F : Type) (HF : PyFloat F) fromisoformat time_sleep (cfg : config_t F) env fuel
     a' slept,
     collect_data fromisoformat time_sleep fuel env 0 (init cfg) [] = Some (Ok (a', slept)) →
     within_total (collection_stats a')) ∧
  (∀ a : agent Q,
     within_total (collection_stats a) → (0 <= get_success_rate a <= 1)%Q).
Proof.
  split; [|split].
  - intros F HF o a. apply make_api_request_within.
  - intros F HF fromisoformat time_sleep cfg env fuel a' slept Hrun.
    apply (collect_data_within _ _ _ _ _ _ _ _ _ Hrun). unfold within_total. cbn. lia.
  - apply get_success_rate_exact_bounds.
Qed.

(** X5. Completeness after a collection is all or nothing.  When a run
    from a fresh agent ends normally every stored record is complete, so
    [check_completeness] is 0 on an empty store and otherwise the number of
    records over itself; in exact arithmetic that is 1. *)
Theorem collect_data_completeness :
  (∀ (F : Type) (HF : PyFloat F) fromisoformat time_sleep (cfg : config_t F) env fuel
     a' slept,
     collect_data fromisoformat time_sleep fuel env 0 (init cfg) [] = Some (Ok (a', slept)) →
     Forall (complete (required_fields (data_quality cfg))) (data_store a') ∧
     check_completeness a' =
       match data_store a' with
       | [] => f_of_Z 0
       | _ :: _ => let n := Z.of_nat (length (data_store a')) in truediv n n
       end) ∧
  (∀ fromisoformat time_sleep (cfg : config_t Q) env fuel a' slept,
     collect_data fromisoformat time_sleep fuel env 0 (init cfg) [] = Some (Ok (a', slept)) →
     data_store a' ≠ [] → (check_completeness a' == 1)%Q).
Proof.
  split.
  - intros F HF fromisoformat time_sleep cfg env fuel a' slept.
    apply collect_data_complete_store.
  - intros fromisoformat time_sleep cfg env fuel a' slept Hrun Hne.
    apply collect_data_complete_store in Hrun as [_ ->].
    destruct (data_store a') as [|item0 rest]; [done|].
    cbn zeta. unfold truediv. cbn [fdiv f_of_Z exact].
    apply Qmult_inv_r. change 0%Q with (inject_Z 0).
    rewrite inject_Z_injective. cbn [length]. lia.
Qed.

Section Processing.
Context {F : Type} `{PyFloat F}.
Variable fromisoformat : string → option Z.
Variable time_sleep : F → result unit.

(** [process_items] goes through the list as long as its elements are
    objects. *)
Lemma process_items_result (stamp : nat → string) (i : nat) (l : list (pyval F)) :
  if forallb is_object l
  then ∃ processed, process_items stamp i l = Ok processed ∧
         length processed = length l ∧
         ∀ k item, l !! k = Some (VDict item) →
           processed !! k = Some (process_item (stamp (i + k)%nat) item)
  else process_items stamp i l = Raise AttributeError.
Proof.
  revert i. induction l as [|v l IH]; intros i; cbn.
  { exists []. split; [done|]. split; [done|]. intros k item Hk. done. }
  destruct v as [| | | | | |item]; cbn; try done.
  specialize (IH (S i)). destruct (forallb is_object l).
  - destruct IH as (processed & -> & Hlen & Hk). cbn.
    eexists. split; [done|]. cbn. split; [by rewrite Hlen|].
    intros [|k] item' Hitem; simpl in *.
    + injection Hitem as <-. by rewrite Nat.add_0_r.
    + rewrite (Hk k item' Hitem). do 3 f_equal. lia.
  - by rewrite IH.
Qed.

(** X6. [process_data] on a body whose [items] is a list.  If every
    element is an object the result has one record per element, in the
    order of the list, each built from its element alone and each with
    exactly the five keys [name], [elixir_cost], [type], [rarity] and
    [collected_at]; if some element is not an object the call raises
    [AttributeError] and returns nothing. *)
Theorem process_data_result (stamp : nat → string)
    (raw_data : gmap string (pyval F)) (l : list (pyval F)) :
  raw_data !! "items"%string = Some (VList l) →
  (forallb is_object l = true →
   ∃ processed, process_data stamp raw_data = Ok (Some processed) ∧
     length processed = length l ∧
     (∀ k item, l !! k = Some (VDict item) →
        processed !! k = Some (process_item (stamp k) item)) ∧
     (∀ record, record ∈ processed →
        dom record
        = {[ "name"; "elixir_cost"; "type"; "rarity"; "collected_at" ]}%string)) ∧
  (forallb is_object l = false →
   process_data stamp raw_data = Raise AttributeError).
Proof.
  intros Hitems. unfold process_data.
  case_bool_decide as Hempty; [by subst raw_data|].
  rewrite Hitems. cbn [py_iter].
  pose proof (process_items_result stamp 0 l) as Hl.
  split; intros Hall; rewrite Hall in Hl.
  - destruct Hl as (processed & -> & Hlen & Hk). cbn.
    exists processed. split; [done|]. split; [done|]. split; [exact Hk|].
    intros record Hrecord.
    apply list_elem_of_lookup in Hrecord as [k Hrecord].
    assert (k < length l)%nat as Hlt.
    { rewrite <- Hlen. by eapply lookup_lt_Some. }
    destruct (lookup_lt_is_Some_2 l k Hlt) as [v Hv].
    assert (is_object v = true) as Hobj.
    { rewrite forallb_forall in Hall. apply Hall, list_elem_of_In.
      by eapply list_elem_of_lookup_2. }
    destruct v as [| | | | | |item]; try done.
    rewrite (Hk k item Hv) in Hrecord. injection Hrecord as <-.
    unfold process_item. rewrite !dom_insert_L, dom_singleton_L. set_solver.
  - by rewrite Hl.
Qed.

(** An iteration is its steps up to the delay, followed by the sleep. *)
Lemma iteration_then_sleep (w : world F) (a : agent F) :
  iteration fromisoformat time_sleep w a =
    r ← iteration fromisoformat (λ _, Ok ()) w a;
    _ ← time_sleep r.2; Ok r.
Proof.
  unfold iteration. cbn zeta.
  destruct (make_api_request _ _) as [a2 data].
  destruct data as [raw_data|]; cbn; [|done].
  destruct (negb _); cbn; [|done].
  by destruct (process_data _ _).
Qed.

(** Up to the delay, an iteration raises exactly on a response that
    [process_data] cannot go through. *)
Lemma iteration_before_sleep (w : world F) (a : agent F) (e : exn) :
  iteration fromisoformat (λ _, Ok ()) w a = Raise e ↔
  e = AttributeError ∧ unprocessable (fetch w) = true.
Proof.
  unfold iteration. cbn zeta.
  set (a1 := if flt _ _ then adjust_strategy a else a). clearbody a1.
  destruct (fetch w) as [err|status_code json]; cbn.
  { split; [done|]. by intros [_ ?]. }
  destruct (Z.eqb_spec status_code 200) as [->|Hne]; cbn.
  2:{ destruct json as [[| | | | | |raw_data]|];
        destruct (status_code =? 403), (status_code =? 429), (status_code =? 401);
        cbn; (split; [done|by intros [_ ?]]). }
  destruct json as [[| | | | | |raw_data]|]; cbn;
    try (split; [done|by intros [_ ?]]).
  unfold save_raw_data, process_data.
  assert (∀ items, raw_data !! "items"%string = Some items → raw_data ≠ ∅)
    as Hne by (by intros items Hitems ->).
  destruct (raw_data !! "items"%string) as [items|] eqn:Hitems; cbn.
  2:{ repeat case_bool_decide; cbn; rewrite ?Hitems; cbn;
        (split; [done|by intros [_ ?]]). }
  specialize (Hne items eq_refl).
  destruct items as [| | | |s|l|d]; cbn; try (split; [done|by intros [_ ?]]).
  - destruct s as [|c s]; cbn; (repeat case_bool_decide; try done);
      cbn; rewrite Hitems; cbn.
    + split; [done|by intros [_ ?]].
    + split; [by intros [= <-]|by intros [-> _]].
  - pose proof (process_items_result (stamp w) 0 l) as Hl.
    destruct l as [|v l]; cbn; (repeat case_bool_decide; try done);
      cbn; rewrite Hitems; cbn; [split; [done|by intros [_ ?]]|].
    cbn [forallb] in Hl.
    destruct (is_object v && forallb is_object l).
    + destruct Hl as (processed & Hp & _). cbn in Hp. rewrite Hp. cbn.
      split; [done|by intros [_ ?]].
    + cbn in Hl. rewrite Hl. cbn. split; [by intros [= <-]|by intros [-> _]].
  - case_bool_decide as Hd; cbn; [|split; [done|by intros [_ ?]]].
    subst d. (repeat case_bool_decide; try done). cbn. rewrite Hitems. cbn.
    rewrite map_to_list_empty. cbn. split; [done|by intros [_ ?]].
Qed.

(** The delay an iteration asks for is fixed by the strategy adjustment at
    its top: the request and the storage step change neither the base delay
    nor the multiplier. *)
Lemma iteration_delay (sleep : F → result unit) (w : world F) (a a' : agent F)
    (d : F) :
  iteration fromisoformat sleep w a = Ok (a', d) →
  d = respectful_delay
        (if flt (get_success_rate a) (lit 8 10) then adjust_strategy a else a)
        (jitter w).
Proof.
  intros Hit. apply iteration_steps in Hit as [Hsteps ->]. cbn zeta in Hsteps.
  set (a1 := if flt _ _ then adjust_strategy a else a) in *.
  pose proof (make_api_request_frame (fetch w) a1) as (_ & Hm & _).
  pose proof (make_api_request_config (fetch w) a1) as Hcfg.
  unfold respectful_delay.
  destruct Hsteps as [->|(raw_data & p & _ & _ & ->)]; [by rewrite Hm, Hcfg|].
  destruct (validate_and_store_added (make_api_request (fetch w) a1).1 p)
    as (_ & _ & _ & -> & _).
  by rewrite validate_and_store_config, Hm, Hcfg.
Qed.

Lemma iteration_raise_iff (w : world F) (a : agent F) (e : exn) :
  iteration fromisoformat time_sleep w a = Raise e ↔
  (e = AttributeError ∧ unprocessable (fetch w) = true) ∨
  (unprocessable (fetch w) = false ∧
   time_sleep
     (respectful_delay
        (if flt (get_success_rate a) (lit 8 10) then adjust_strategy a else a)
        (jitter w))
   = Raise e).
Proof.
  rewrite iteration_then_sleep.
  destruct (iteration fromisoformat (λ _, Ok ()) w a) as [[a' d]|e'] eqn:Hpre; cbn.
  - assert (unprocessable (fetch w) = false) as Hu.
    { destruct (unprocessable (fetch w)) eqn:Hu; [|done].
      assert (iteration fromisoformat (λ _, Ok ()) w a = Raise AttributeError)
        as Hr by by apply iteration_before_sleep.
      congruence. }
    rewrite <- (iteration_delay _ _ _ _ _ Hpre), Hu.
    destruct (time_sleep d) as [[]|e1]; cbn.
    + split; [done|]. by intros [[_ ?]|[_ ?]].
    + split; [intros [= <-]; by right|]. by intros [[_ ?]|[_ [= <-]]].
  - apply iteration_before_sleep in Hpre as [-> Hu]. rewrite Hu. split.
    + intros [= <-]. by left.
    + by intros [[-> _]|[? _]].
Qed.

(** X7. The two ways an iteration of the loop raises.  An iteration ends
    in an exception exactly when the response has status 200 and a body
    that is an object whose [items] is a non-empty string or a list with an
    element that is not an object, and the exception is then
    [AttributeError], from [item.get] in [process_data]; or when, on any
    other outcome of the request, [time.sleep] raises on the delay, and the
    exception is then the one [time.sleep] raised.  The delay is the base
    delay times the multiplier as the strategy adjustment at the top of the
    iteration leaves it, times the jitter. *)
Theorem iteration_raises (w : world F) (a : agent F) (e : exn) :
  iteration fromisoformat time_sleep w a = Raise e ↔
  (e = AttributeError ∧ unprocessable (fetch w) = true) ∨
  (unprocessable (fetch w) = false ∧
   time_sleep
     (respectful_delay
        (if flt (get_success_rate a) (lit 8 10) then adjust_strategy a else a)
        (jitter w))
   = Raise e).
Proof. apply iteration_raise_iff. Qed.


End Processing.

(** ** The strategy inside the loop *)

Lemma SFltb_trans (x y z : spec_float) :
  SFltb x y = true → SFltb y z = true → SFltb x z = true.
Proof.
  unfold SFltb, SFcompare.
  destruct x as [[]|[]| |[] mx ex], y as [[]|[]| |[] my ey], z as [[]|[]| |[] mz ez];
    try done;
    change (PosDef.Pos.compare_cont Eq) with Pos.compare;
    destruct (Z.compare_spec ex ey), (Z.compare_spec ey ez), (Z.compare_spec ex ez);
    try done; try lia;
    destruct (Pos.compare_spec mx my), (Pos.compare_spec my mz),
      (Pos.compare_spec mx mz); try done; lia.
Qed.

#[export] Instance binary64_thresholds : PyFloatThresholds float.
Proof.
  constructor; intros x; cbn; rewrite !ltb_spec; intros Hx.
  - by apply (SFltb_trans _ _ _ Hx).
  - destruct (SFltb (Prim2SF (lit 9 10)) (Prim2SF x)) eqn:Hhi; [|done].
    pose proof (SFltb_trans _ _ _ Hhi Hx) as Hc. vm_compute in Hc. done.
Qed.

#[export] Instance exact_thresholds : PyFloatThresholds Q.
Proof.
  constructor; intros x; cbn; rewrite !negb_true_iff, ?negb_false_iff;
    intros Hx.
  - destruct (Qle_bool (inject_Z 8 / inject_Z 10) x) eqn:Hle; [|done].
    apply Qle_bool_iff in Hle.
    assert (¬ (inject_Z 5 / inject_Z 10 <= x)%Q) as Hn
      by (rewrite <- Qle_bool_iff; congruence).
    exfalso. apply Hn.
    setoid_replace (inject_Z 5 / inject_Z 10)%Q with (5 # 10)%Q
      using relation Qeq by done.
    setoid_replace (inject_Z 8 / inject_Z 10)%Q with (8 # 10)%Q
      using relation Qeq in Hle by done.
    lra.
  - apply Qle_bool_iff.
    assert (¬ (inject_Z 8 / inject_Z 10 <= x)%Q) as Hn
      by (rewrite <- Qle_bool_iff; congruence).
    apply Qnot_le_lt in Hn.
    setoid_replace (inject_Z 9 / inject_Z 10)%Q with (9 # 10)%Q
      using relation Qeq by done.
    setoid_replace (inject_Z 8 / inject_Z 10)%Q with (8 # 10)%Q
      using relation Qeq in Hn by done.
    lra.
Qed.

Section LoopStrategy.
Context {F : Type} `{PyFloatThresholds F}.
Variable fromisoformat : string → option Z.
Variable time_sleep : F → result unit.

(** The guarded call at the top of an iteration:
    [if self.get_success_rate() < 0.8: self.adjust_strategy()]. *)
Lemma guarded_adjust_strategy (a : agent F) :
  (if flt (get_success_rate a) (lit 8 10) then adjust_strategy a else a)
  = if flt (get_success_rate a) (lit 5 10)
    then try_fallback_api
           (set_delay_multiplier a (fmul (delay_multiplier a) (f_of_Z 2)))
    else a.
Proof.
  unfold adjust_strategy.
  destruct (flt (get_success_rate a) (lit 5 10)) eqn:Hlow.
  - by rewrite (below_half_below_08 _ Hlow).
  - destruct (flt (get_success_rate a) (lit 8 10)) eqn:Hmid; [|done].
    by rewrite (below_08_not_above_09 _ Hmid).
Qed.

Lemma iteration_strategy (w : world F) (a a' : agent F) (d : F) :
  iteration fromisoformat time_sleep w a = Ok (a', d) →
  if flt (get_success_rate a) (lit 5 10)
  then delay_multiplier a' = fmul (delay_multiplier a) (f_of_Z 2) ∧
       current_api a' = current_api (try_fallback_api a)
  else delay_multiplier a' = delay_multiplier a ∧ current_api a' = current_api a.
Proof.
  intros Hit. apply iteration_steps in Hit as [Hsteps _]. cbn zeta in Hsteps.
  rewrite guarded_adjust_strategy in Hsteps.
  set (a1 := if flt _ _ then _ else a) in *.
  pose proof (make_api_request_frame (fetch w) a1) as (_ & Hm & Hapi).
  assert (delay_multiplier a' = delay_multiplier a1 ∧ current_api a' = current_api a1)
    as [-> ->].
  { destruct Hsteps as [->|(raw_data & p & _ & _ & ->)]; [done|].
    destruct (validate_and_store_added (make_api_request (fetch w) a1).1 p)
      as (_ & _ & _ & -> & ->). done. }
  subst a1. destruct (flt _ _); [|done].
  split; [apply try_fallback_api_keeps|].
  unfold try_fallback_api. cbn. destruct (default [] _); [done|].
  by destruct (negb _).
Qed.

(** X9. Inside the loop the strategy only ever backs off.  [collect_data]
    calls [adjust_strategy] only when the success rate is below 0.8, where
    the branch for a rate above 0.9 cannot be taken: an iteration that
    starts with a rate below 0.5 doubles the multiplier and tries the
    fallback endpoint, and any other iteration leaves both the multiplier
    and the endpoint as they were.  No iteration multiplies by 0.8. *)
Theorem iteration_only_backs_off (w : world F) (a a' : agent F) (d : F) :
  iteration fromisoformat time_sleep w a = Ok (a', d) →
  if flt (get_success_rate a) (lit 5 10)
  then delay_multiplier a' = fmul (delay_multiplier a) (f_of_Z 2) ∧
       current_api a' = current_api (try_fallback_api a)
  else delay_multiplier a' = delay_multiplier a ∧ current_api a' = current_api a.
Proof. apply iteration_strategy. Qed.

(** X10. Over a whole run the delay multiplier is doubled some number of
    times and changed in no other way: when the loop ends normally the
    multiplier is its value at the start doubled [k] times, for some [k]
    that is at most the number of iterations made. *)
Theorem collect_data_multiplier (env : nat → world F) (fuel i : nat)
    (a a' : agent F) (slept slept' : list F) :
  collect_data fromisoformat time_sleep fuel env i a slept = Some (Ok (a', slept')) →
  ∃ k, (length slept + k ≤ length slept')%nat ∧
    delay_multiplier a'
    = Nat.iter k (λ x, fmul x (f_of_Z 2)) (delay_multiplier a).
Proof.
  revert i a slept. induction fuel as [|fuel IH]; intros i a slept; cbn; [done|].
  destruct (collection_complete a).
  { intros [= <- <-]. exists 0%nat. split; [lia|done]. }
  destruct (iteration fromisoformat time_sleep (env i) a) as [[a1 d]|e] eqn:Hit; [|done].
  intros Hrun. apply IH in Hrun as (k & Hk & ->).
  rewrite length_app in Hk. cbn in Hk.
  apply iteration_strategy in Hit.
  destruct (flt _ _); destruct Hit as [-> _].
  - exists (S k). split; [lia|]. by rewrite Nat.iter_succ_r.
  - exists k. split; [lia|done].
Qed.

End LoopStrategy.

(** ** Validation, completeness, endpoint and delay *)

Section ValidationEdges.
Context {F : Type} `{PyFloat F}.

(** X11. When [validate_data] accepts.  It returns [True] exactly on a
    batch that is a non-empty list all of whose records hold a true value
    for every required field; [None] and the empty list are refused; and
    with no required fields configured every non-empty batch is
    accepted. *)
Theorem validate_data_iff (a : agent F) (data : option (list (gmap string (pyval F)))) :
  (validate_data a data = true ↔
   ∃ batch, data = Some batch ∧ batch ≠ [] ∧
     Forall (complete (required_fields (data_quality (config a)))) batch) ∧
  (required_fields (data_quality (config a)) = [] →
   ∀ batch, batch ≠ [] → validate_data a (Some batch) = true).
Proof.
  assert (validate_data a data = true ↔
          ∃ batch, data = Some batch ∧ batch ≠ [] ∧
            Forall (complete (required_fields (data_quality (config a)))) batch)
    as Hiff.
  { destruct data as [batch|]; [|split; [done|by intros (? & ? & _)]].
    rewrite validate_data_true. split.
    - intros [Hne Hall]. exists batch. split; [done|]. split; [done|].
      apply Forall_forall. intros item Hitem field Hfield.
      apply field_ok_true. by apply Hall.
    - intros (? & [= <-] & Hne & Hall). split; [done|].
      intros item field Hitem Hfield. rewrite Forall_forall in Hall.
      apply field_ok_true. by apply Hall. }
  split; [exact Hiff|].
  intros Hnone batch Hne. apply validate_data_true. split; [done|].
  intros item field _ Hfield. rewrite Hnone in Hfield. by apply elem_of_nil in Hfield.
Qed.

(** X12. The completeness score is 0 on an empty data store, and
    otherwise the number of records that hold a true value for every
    required field over the number of all records. *)
Theorem check_completeness_fraction (a : agent F) :
  ∃ complete_items total_items : nat,
    total_items = length (data_store a) ∧
    complete_items =
      length (filter (complete (required_fields (data_quality (config a))))
                     (data_store a)) ∧
    (complete_items ≤ total_items)%nat ∧
    check_completeness a =
      match total_items with
      | O => f_of_Z 0
      | S _ => truediv (Z.of_nat complete_items) (Z.of_nat total_items)
      end.
Proof.
  eexists _, _. split; [done|]. split; [done|]. split; [apply length_filter|].
  rewrite check_completeness_count. by destruct (data_store a).
Qed.

Lemma try_fallback_api_endpoint (a : agent F) :
  let fallback := default [] (fallback_apis (api_settings (config a))) in
  current_api (try_fallback_api a) =
    match fallback with
    | [] => current_api a
    | first :: _ => first
    end.
Proof.
  unfold try_fallback_api. cbn zeta. destruct (default [] _) as [|first rest]; [done|].
  destruct (String.eqb_spec (current_api a) first); cbn; congruence.
Qed.

Lemma adjust_strategy_endpoint (a : agent F) :
  current_api (adjust_strategy a) = current_api a ∨
  current_api (adjust_strategy a) = current_api (try_fallback_api a).
Proof.
  unfold adjust_strategy. destruct (flt _ _).
  - right. unfold try_fallback_api. cbn. destruct (default [] _); [done|].
    by destruct (negb _).
  - left. by destruct (flt _ _).
Qed.

(** X13. The endpoint only ever moves to the first fallback.
    [try_fallback_api] is idempotent; after any sequence of
    [adjust_strategy] calls the endpoint is the one the sequence started
    with or the first entry of [fallback_apis]; and once the endpoint is
    that first entry it stays there.  A second fallback is never used and
    the agent never returns to the primary endpoint. *)
Theorem current_api_first_fallback_only (history : list stats) (a : agent F) :
  let fallback := default [] (fallback_apis (api_settings (config a))) in
  try_fallback_api (try_fallback_api a) = try_fallback_api a ∧
  (current_api (adjust_run history a) = current_api a ∨
   head fallback = Some (current_api (adjust_run history a))) ∧
  (head fallback = Some (current_api a) →
   current_api (adjust_run history a) = current_api a).
Proof.
  cbn zeta. split; [|split].
  - assert (try_fallback_api a = a ∨
            ∃ first rest,
              default [] (fallback_apis (api_settings (config a))) = first :: rest ∧
              try_fallback_api a = set_current_api a first) as [Hsame|Hset].
    { unfold try_fallback_api.
      destruct (default [] _) as [|first rest]; [by left|].
      destruct (negb _); [right; eauto|by left]. }
    + by rewrite !Hsame.
    + destruct Hset as (first & rest & Hfb & ->).
      unfold try_fallback_api at 1. cbn. rewrite Hfb.
      by rewrite String.eqb_refl.
  - revert a. induction history as [|s history IH]; intros a; cbn; [by left|].
    specialize (IH (adjust_strategy (set_stats a s))).
    destruct (adjust_strategy_keeps (set_stats a s)) as [Hcfg _].
    rewrite Hcfg in IH. cbn in IH.
    destruct IH as [IH|IH]; [|by right]. rewrite IH.
    destruct (adjust_strategy_endpoint (set_stats a s)) as [->| ->]; [by left|].
    rewrite try_fallback_api_endpoint. cbn.
    destruct (default [] _); [by left|by right].
  - revert a. induction history as [|s history IH]; intros a Hhead; cbn; [done|].
    destruct (adjust_strategy_keeps (set_stats a s)) as [Hcfg _].
    assert (current_api (adjust_strategy (set_stats a s)) = current_api a) as Hcur.
    { destruct (adjust_strategy_endpoint (set_stats a s)) as [->| ->]; [done|].
      rewrite try_fallback_api_endpoint. cbn.
      destruct (default [] _); [done|]. cbn in Hhead. congruence. }
    rewrite IH; [done|]. rewrite Hcfg, Hcur. done.
Qed.

End ValidationEdges.

(** X14. The delay stays within half and one and a half times the
    product of the base delay and the multiplier: in exact arithmetic,
    when that product is not negative and the jitter is in [0.5, 1.5],
    [respectful_delay] sleeps between [0.5 * base * multiplier] and
    [1.5 * base * multiplier], the base being the top-level [base_delay] of
    the configuration or 1.0 without one. *)
Theorem respectful_delay_range (a : agent Q) (jitter : Q) :
  let base := default 1%Q (base_delay (config a)) in
  (0 <= base * delay_multiplier a)%Q → (1 # 2 <= jitter <= 3 # 2)%Q →
  (base * delay_multiplier a * (1 # 2) <= respectful_delay a jitter
   <= base * delay_multiplier a * (3 # 2))%Q.
Proof.
  cbn zeta. intros Hpos [Hlo Hhi]. unfold respectful_delay. cbn.
  change (inject_Z 1) with 1%Q.
  generalize dependent (default 1 (base_delay (config a)) * delay_multiplier a)%Q.
  intros p Hp. split.
  - rewrite !(Qmult_comm p). by apply Qmult_le_compat_r.
  - rewrite !(Qmult_comm p). by apply Qmult_le_compat_r.
Qed.

(** ** The configuration file *)

Section LoadConfig.
Context {F : Type} `{PyFloat F}.

Lemma merge_defaults_object (defaults : list (string * pyval F))
    (d : gmap string (pyval F)) :
  ∃ d', merge_defaults defaults (VDict d) = Ok (VDict d') ∧
    ∀ key, d' !! key = match d !! key with
                       | Some v => Some v
                       | None => lookup_default key defaults
                       end.
Proof.
  revert d. induction defaults as [|[k x] defaults IH]; intros d; cbn.
  { exists d. split; [done|]. intros key. by destruct (d !! key). }
  case_bool_decide as Hk; cbn.
  - destruct (IH d) as (d' & -> & Hd'). exists d'. split; [done|].
    intros key. rewrite Hd'. destruct (d !! key) eqn:Hkey; [done|].
    destruct (String.eqb_spec key k) as [->|]; [|done].
    rewrite Hkey in Hk. by destruct Hk.
  - destruct (IH (<[k := x]> d)) as (d' & -> & Hd'). exists d'. split; [done|].
    intros key. rewrite Hd'.
    destruct (String.eqb_spec key k) as [->|Hne].
    + rewrite lookup_insert_eq.
      destruct (d !! k) eqn:Hdk; [|done]. exfalso. apply Hk. eauto.
    + by rewrite lookup_insert_ne.
Qed.

Lemma merge_defaults_raises (defaults : list (string * pyval F)) (v : pyval F) e :
  merge_defaults defaults v = Raise e → e = TypeError.
Proof.
  revert v. induction defaults as [|[k x] defaults IH]; intros v; cbn; [done|].
  destruct (py_contains k v) as [present|e1] eqn:Hc; cbn.
  - destruct present; cbn; [exact (IH v)|].
    destruct (py_setitem v k x) as [v1|e2] eqn:Hs; cbn; [exact (IH v1)|].
    intros [= <-]. destruct v; cbn in Hs; congruence.
  - intros [= <-]. destruct v; cbn in Hc; congruence.
Qed.

Lemma merge_defaults_scalar (defaults : list (string * pyval F)) (v : pyval F) :
  is_scalar v = true → defaults ≠ [] → merge_defaults defaults v = Raise TypeError.
Proof. destruct defaults as [|[k x] defaults]; [done|]. by destruct v. Qed.

Lemma merge_sections_raises sections (config : gmap string (pyval F)) e :
  merge_sections sections config = Raise e → e = TypeError.
Proof.
  revert config. induction sections as [|[s defaults] sections IH]; intros config;
    cbn; [done|].
  destruct (merge_defaults _ _) as [merged|e1] eqn:Hm; cbn; [exact (IH _)|].
  intros [= <-]. by apply merge_defaults_raises in Hm.
Qed.

Lemma merge_sections_objects (sections : list (string * list (string * pyval F))) :
  NoDup sections.*1 →
  ∀ config : gmap string (pyval F),
    (∀ s v, s ∈ sections.*1 → config !! s = Some v → is_object v = true) →
    ∃ config', merge_sections sections config = Ok config' ∧
      (∀ s, s ∉ sections.*1 → config' !! s = config !! s) ∧
      (∀ s defaults, (s, defaults) ∈ sections →
         ∃ d', config' !! s = Some (VDict d') ∧
           ∀ key, d' !! key = match setting config s key with
                              | Some v => Some v
                              | None => lookup_default key defaults
                              end).
Proof.
  induction sections as [|[s0 defaults0] sections IH]; intros Hnodup config Hobj.
  { exists config. split; [done|]. split; [done|].
    intros s defaults Hin. by apply elem_of_nil in Hin. }
  cbn in Hnodup. apply NoDup_cons in Hnodup as [Hs0 Hnodup].
  cbn [merge_sections].
  set (config0 := if bool_decide (is_Some (config !! s0)) then config
                  else <[s0 := VDict ∅]> config).
  assert (∃ d0, default (VDict ∅) (config0 !! s0) = VDict d0 ∧
                ∀ key, d0 !! key = setting config s0 key) as (d0 & -> & Hd0).
  { subst config0. unfold setting. case_bool_decide as Hpresent.
    - destruct (config !! s0) as [v|] eqn:Hv; [|by destruct Hpresent].
      specialize (Hobj s0 v (list_elem_of_here _ _) Hv).
      destruct v; try done. eauto.
    - rewrite lookup_insert_eq.
      destruct (config !! s0) as [v|] eqn:Hv; [exfalso; apply Hpresent; eauto|].
      exists ∅. done. }
  assert (∀ s, s ≠ s0 → config0 !! s = config !! s) as Hother.
  { intros s Hne. subst config0. case_bool_decide; [done|].
    by rewrite lookup_insert_ne. }
  destruct (merge_defaults_object defaults0 d0) as (d0' & -> & Hd0').
  cbn.
  destruct (IH Hnodup (<[s0 := VDict d0']> config0)) as (config' & -> & Hout & Hin).
  { intros s v Hs. assert (s ≠ s0) as Hne by (intros ->; done).
    rewrite lookup_insert_ne, Hother by done. apply Hobj.
    by apply list_elem_of_further. }
  exists config'. split; [done|]. split.
  - intros s Hs. apply not_elem_of_cons in Hs as [Hne Hs].
    rewrite (Hout s Hs), lookup_insert_ne, Hother by done. done.
  - intros s defaults Hsec. apply elem_of_cons in Hsec as [[= -> ->]|Hsec].
    + exists d0'. rewrite (Hout s0 Hs0), lookup_insert_eq. split; [done|].
      intros key. by rewrite Hd0', Hd0.
    + assert (s ≠ s0) as Hne.
      { intros ->. apply Hs0. apply list_elem_of_fmap. by exists (s0, defaults). }
      destruct (Hin s defaults Hsec) as (d' & Hd' & Hkeys).
      exists d'. split; [done|]. intros key. rewrite Hkeys.
      unfold setting. by rewrite lookup_insert_ne, Hother.
Qed.

Lemma merge_sections_scalar (sections : list (string * list (string * pyval F))) :
  Forall (λ p, p.2 ≠ []) sections →
  ∀ (config : gmap string (pyval F)) s v,
    s ∈ sections.*1 → config !! s = Some v → is_scalar v = true →
    merge_sections sections config = Raise TypeError.
Proof.
  induction sections as [|[s0 defaults0] sections IH];
    intros Hne config s v Hs Hv Hscalar.
  { by apply elem_of_nil in Hs. }
  apply Forall_cons in Hne as [Hne0 Hne]. cbn in Hne0.
  cbn [merge_sections].
  destruct (decide (s = s0)) as [->|Hs0].
  - assert (is_Some (config !! s0)) as Hpresent by eauto.
    rewrite (bool_decide_eq_true_2 _ Hpresent), Hv. cbn [default].
    by rewrite merge_defaults_scalar.
  - set (config0 := if bool_decide _ then config else _).
    assert (config0 !! s = Some v) as Hv0.
    { subst config0. case_bool_decide; [done|]. by rewrite lookup_insert_ne. }
    destruct (merge_defaults _ _) as [merged|e] eqn:Hm; cbn.
    + apply (IH Hne _ s v); [|by rewrite lookup_insert_ne|done].
      cbn in Hs. by apply elem_of_cons in Hs as [?|?].
    + f_equal. by apply merge_defaults_raises in Hm.
Qed.

Lemma default_config_sections :
  (default_config (F:=F)).*1 = default_sections.
Proof. done. Qed.

Lemma default_config_lookup (s : string) defaults :
  (s, defaults) ∈ default_config (F:=F) →
  lookup_default s (default_config (F:=F)) = Some defaults.
Proof.
  unfold default_config. intros Hin.
  repeat (apply elem_of_cons in Hin as [[= -> <-]|Hin]; [done|]).
  by apply elem_of_nil in Hin.
Qed.

Lemma default_config_elem (s : string) :
  s ∈ default_sections →
  ∃ defaults, (s, defaults) ∈ default_config (F:=F).
Proof.
  unfold default_sections, default_config. intros Hin.
  repeat (apply elem_of_cons in Hin as [->|Hin];
          [eexists;
           repeat (first [apply list_elem_of_here|apply list_elem_of_further])|]).
  by apply elem_of_nil in Hin.
Qed.

Lemma default_setting_other (s key : string) :
  s ∉ default_sections → default_setting (F:=F) s key = None.
Proof.
  unfold default_sections, default_setting, default_config. intros Hs.
  cbn [lookup_default].
  destruct (String.eqb_spec s "agent_settings") as [->|_];
    [exfalso; apply Hs; set_solver|].
  destruct (String.eqb_spec s "api_settings") as [->|_];
    [exfalso; apply Hs; set_solver|].
  destruct (String.eqb_spec s "data_quality") as [->|_];
    [exfalso; apply Hs; set_solver|].
  done.
Qed.

(** X16. What [load_config] returns on a file whose three sections are
    objects or absent.  It does not raise; every setting of every section
    is the value the file gives it when the file has one, and otherwise the
    default when [load_config] has a default for it, and absent when it has
    none (so [required_fields], [max_age_hours] and the storage paths get
    no default); the three sections are objects afterwards; every other
    top-level key is as in the file; and loading the result again changes
    nothing. *)
Theorem load_config_merges_defaults (config : gmap string (pyval F)) :
  (∀ section v, section ∈ default_sections →
     config !! section = Some v → is_object v = true) →
  ∃ config', load_config (VDict config) = Ok config' ∧
    (∀ section key,
       setting config' section key =
         match setting config section key with
         | Some v => Some v
         | None => default_setting section key
         end) ∧
    (∀ section, section ∈ default_sections →
       ∃ d, config' !! section = Some (VDict d)) ∧
    (∀ k, k ∉ default_sections → config' !! k = config !! k) ∧
    load_config (VDict config') = Ok config'.
Proof.
  intros Hobj. unfold load_config.
  assert (NoDup (default_config (F:=F)).*1) as Hnodup.
  { rewrite default_config_sections. compute_done. }
  destruct (merge_sections_objects default_config Hnodup config)
    as (config' & Hload & Hout & Hin).
  { rewrite default_config_sections. exact Hobj. }
  rewrite default_config_sections in Hout.
  exists config'. split; [exact Hload|].
  assert (∀ section, section ∈ default_sections →
            ∃ d, config' !! section = Some (VDict d)) as Hsections.
  { intros section Hsection.
    destruct (default_config_elem section Hsection) as [defaults Hdefaults].
    destruct (Hin section defaults Hdefaults) as (d' & Hd' & _). eauto. }
  split; [|split; [exact Hsections|split; [exact Hout|]]].
  - intros section key.
    destruct (decide (section ∈ default_sections)) as [Hsection|Hsection].
    + destruct (default_config_elem section Hsection) as [defaults Hdefaults].
      destruct (Hin section defaults Hdefaults) as (d' & Hd' & Hkeys).
      unfold setting at 1. rewrite Hd', Hkeys.
      unfold default_setting. by rewrite (default_config_lookup _ _ Hdefaults).
    + rewrite default_setting_other by done.
      unfold setting. rewrite (Hout section Hsection).
      destruct (config !! section) as [[| | | | | |d]|]; try done.
      by destruct (d !! key).
  - destruct (merge_sections_objects default_config Hnodup config')
      as (config'' & -> & Hout' & Hin').
    { rewrite default_config_sections. intros section v Hsection Hv.
      destruct (Hsections section Hsection) as [d Hd]. by simplify_eq. }
    rewrite default_config_sections in Hout'.
    f_equal. apply map_eq. intros section.
    destruct (decide (section ∈ default_sections)) as [Hsection|Hsection];
      [|by apply Hout'].
    destruct (default_config_elem section Hsection) as [defaults Hdefaults].
    destruct (Hin section defaults Hdefaults) as (d' & Hd' & Hkeys).
    destruct (Hin' section defaults Hdefaults) as (d'' & Hd'' & Hkeys').
    rewrite Hd', Hd''. do 2 f_equal. apply map_eq. intros key.
    rewrite Hkeys'. unfold setting at 1. rewrite Hd'.
    destruct (d' !! key) eqn:Hkey; [done|].
    rewrite Hkeys in Hkey. by destruct (setting config section key).
Qed.

(** X17. When [load_config] fails on the parsed file it is with a
    [TypeError], whatever the file holds, and it does fail when the file
    is not a JSON object at the top, and when one of the three sections is
    [null], a number or a boolean. *)
Theorem load_config_type_error :
  (∀ parsed : pyval F, is_object parsed = false →
     load_config parsed = Raise TypeError) ∧
  (∀ (config : gmap string (pyval F)) section v,
     section ∈ default_sections → config !! section = Some v →
     is_scalar v = true →
     load_config (VDict config) = Raise TypeError) ∧
  (∀ (parsed : pyval F) e, load_config parsed = Raise e → e = TypeError).
Proof.
  split; [|split].
  - by intros [].
  - intros config section v Hsection Hv Hscalar.
    unfold load_config.
    assert (Forall (λ p, p.2 ≠ []) (default_config (F:=F))) as Hne
      by (by repeat constructor).
    apply (merge_sections_scalar default_config Hne config section v);
      [by rewrite default_config_sections|done|done].
  - intros parsed e. destruct parsed as [| | | | | |config];
      [by intros [= <-]..|].
    apply merge_sections_raises.
Qed.

End LoadConfig.

(** ** Credentials, the connectivity test and the schema documentation *)

Section Surroundings.
Context {F : Type} `{PyFloat F}.

(** X18. Where the API key comes from.  A [primary_api] in the
    configuration that is a string starting with [eyJ] is the key, whatever
    the [.env] files hold; a key that is returned is either such a
    [primary_api] or the one found in the [.env] files; a [primary_api]
    that is true and not a string makes the method return [None] without
    looking at the [.env] files; and without a [primary_api] the key is the
    one from the [.env] files. *)
Theorem load_api_credentials_sources (config : gmap string (pyval F))
    (env_key : option string) :
  (∀ s, setting config "api_settings" "primary_api" = Some (VStr s) →
     String.prefix "eyJ" s = true →
     _load_api_credentials config env_key = Some s) ∧
  (∀ key, _load_api_credentials config env_key = Some key →
     env_key = Some key ∨
     (String.prefix "eyJ" key = true ∧
      setting config "api_settings" "primary_api" = Some (VStr key))) ∧
  (∀ v, setting config "api_settings" "primary_api" = Some v →
     truthy v = true → (∀ s, v ≠ VStr s) →
     _load_api_credentials config env_key = None) ∧
  (setting config "api_settings" "primary_api" = None →
   (∀ v, config !! "api_settings"%string = Some v → is_object v = true) →
   _load_api_credentials config env_key = env_key).
Proof.
  unfold _load_api_credentials, setting.
  destruct (config !! "api_settings"%string) as [[| | | | | |api_settings]|];
    simpl;
    try (repeat split; try done; intros _ Hobj; by specialize (Hobj _ eq_refl)).
  - destruct (api_settings !! "primary_api"%string) as [v|] eqn:Hv; simpl.
    + split; [|split; [|split; [|done]]].
      * intros s [= ->] Hs. rewrite Hs. by destruct s.
      * intros key. destruct (truthy v); [|by left].
        destruct v as [| | | |s| |]; try done.
        destruct (String.prefix "eyJ" s) eqn:Hs; [|by left].
        intros [= <-]. by right.
      * intros v' [= <-] -> Hns. destruct v; try done. by destruct (Hns s).
    + repeat split; try done. intros key Hkey. by left.
  - rewrite lookup_empty. simpl. repeat split; try done. intros key Hkey. by left.
Qed.

(** X20. The connectivity test against the collection.  With a key and
    a connection, the test passes on every response from which
    [make_api_request] returns data; a response the test passes and
    [make_api_request] still counts as failed is one whose [items] is a
    non-empty object, on which saving the raw data raises; and the test
    passes only with a connection, a non-empty key and a 200 response whose
    body is an object. *)
Theorem test_api_connectivity_agrees (api_key : string) (o : fetch_outcome F)
    (a : agent F) :
  api_key ≠ ""%string →
  (∀ raw_data, (make_api_request o a).2 = Some raw_data →
     test_api_connectivity true (Some api_key) o = true) ∧
  (test_api_connectivity true (Some api_key) o = true →
   (make_api_request o a).2 = None →
   ∃ raw_data d, o = Responded 200 (Some (VDict raw_data)) ∧
     raw_data !! "items"%string = Some (VDict d) ∧ d ≠ ∅) ∧
  (∀ connected key, test_api_connectivity connected key o = true →
     connected = true ∧ (∃ s, key = Some s ∧ s ≠ ""%string) ∧
     ∃ raw_data, o = Responded 200 (Some (VDict raw_data))).
Proof.
  intros Hkey. destruct api_key as [|c api_key]; [done|]. clear Hkey.
  split; [|split].
  - intros raw_data. destruct o as [e|status_code json]; cbn; [done|].
    destruct (Z.eqb_spec status_code 200) as [->|Hne]; cbn.
    + destruct json as [[| | | | | |d]|]; try done.
      by destruct (py_len _).
    + by destruct (status_code =? 403), (status_code =? 429), (status_code =? 401).
  - destruct o as [e|status_code json]; cbn; [done|].
    destruct (Z.eqb_spec status_code 200) as [->|Hne]; cbn;
      [|by destruct (status_code =? 403)].
    destruct json as [[| | | | | |raw_data]|]; try done.
    unfold save_raw_data.
    destruct (raw_data !! "items"%string) as [items|] eqn:Hitems; cbn; [|done].
    destruct items as [| | | |s|l|d]; cbn; try done.
    + by destruct s.
    + by destruct l.
    + case_bool_decide as Hd; cbn; [done|]. intros _ _. eauto.
  - intros connected key. unfold test_api_connectivity.
    destruct connected; cbn; [|done].
    destruct key as [[|c' s]|]; try done.
    destruct o as [e|status_code json]; [done|].
    destruct (Z.eqb_spec status_code 200) as [->|Hne];
      [|by destruct (status_code =? 403)].
    destruct json as [[| | | | | |raw_data]|]; try done.
    intros _. split; [done|]. split; eauto.
Qed.

Lemma py_getitem_dict (d : gmap string (pyval F)) (key : string) (x : pyval F) :
  d !! key = Some x → py_getitem (VDict d) key = Ok x.
Proof. unfold py_getitem. by intros ->. Qed.

(** X19. The schema documentation on an empty and on a filled data
    store.  Looking up the raw schema's fields in what
    [generate_data_schema_docs] returns, as [save_markdown_docs] does,
    raises [KeyError] exactly when nothing has been stored; with records in
    the store the lookup gives the six documented raw fields, and the
    processed schema has exactly the fields of the first stored record,
    each with the Python type name and the value of that record; later
    records play no part. *)
Theorem generate_data_schema_docs_fields (a : agent F) :
  (schema_fields (generate_data_schema_docs a) "raw_data_schema" = Raise KeyError
   ↔ data_store a = []) ∧
  (∀ sample_item rest, data_store a = sample_item :: rest →
     (∃ fields, schema_fields (generate_data_schema_docs a) "raw_data_schema"
                = Ok (VDict fields) ∧
        dom fields = {[ "name"; "id"; "elixirCost"; "maxLevel"; "rarity";
                        "iconUrls" ]}%string) ∧
     (∃ fields, schema_fields (generate_data_schema_docs a) "processed_data_schema"
                = Ok (VDict fields) ∧
        dom fields = dom sample_item ∧
        ∀ field value, sample_item !! field = Some value →
          ∃ info, fields !! field = Some (VDict info) ∧
            info !! "type"%string = Some (VStr (py_type_name value)) ∧
            info !! "sample_value"%string = Some value)).
Proof.
  unfold generate_data_schema_docs, schema_fields.
  destruct (data_store a) as [|sample_item rest].
  { split; [done|]. intros ? ? [=]. }
  split.
  { erewrite py_getitem_dict by (by simplify_map_eq). cbn [mbind result_bind].
    erewrite py_getitem_dict by (by simplify_map_eq). by split. }
  intros ? ? [= <- <-]. split.
  - erewrite py_getitem_dict by (by simplify_map_eq). cbn [mbind result_bind].
    erewrite py_getitem_dict by (by simplify_map_eq).
    eexists. split; [done|].
    rewrite !dom_insert_L, dom_singleton_L. set_solver.
  - erewrite py_getitem_dict by (by simplify_map_eq). cbn [mbind result_bind].
    erewrite py_getitem_dict by (by simplify_map_eq).
    eexists. split; [reflexivity|]. cbn [truthy].
    case_bool_decide as Hempty; cbn [negb].
    + subst sample_item. split; [by rewrite !dom_empty_L|].
      intros field value Hfield. by rewrite lookup_empty in Hfield.
    + split.
      * apply set_eq. intros field. rewrite !elem_of_dom, map_lookup_imap.
        destruct (sample_item !! field); cbn; split; intros [? ?]; eauto; done.
      * intros field value Hfield. rewrite map_lookup_imap, Hfield. cbn.
        eexists. split; [done|]. split; by simplify_map_eq.
Qed.

End Surroundings.

(** ** The further theorems on the sample data *)

Section OnMoreSamples.

Lemma make_api_request_outcome_witness :
  Responded (F:=float) 200 (Some (cards [VDict knight]))
  = Responded 200 (Some (VDict {[ "items"%string := VList [VDict knight] ]})).
Proof.
  apply (make_api_request_outcome (Responded 200 (Some (cards [VDict knight])))
           (init (sample_config (F:=float) 3))).
  vm_compute. reflexivity.
Defined.

(** Three requests, the first of them answered by a 200 response that
    cannot be read: one count too many. *)
Lemma collect_data_imbalance_witness :
  ∃ a' slept,
    collect_data (F:=float) sample_fromisoformat sample_sleep 10 mixed_env 0
      (init (sample_config 3)) [] = Some (Ok (a', slept)) ∧
    successful_requests (collection_stats a')
    + failed_requests (collection_stats a')
    - total_requests (collection_stats a') = 1.
Proof.
  eexists _, _. split; [vm_compute; reflexivity|].
  refine (eq_trans (proj1 (collect_data_imbalance sample_fromisoformat sample_sleep
                             (sample_config 3) mixed_env 10 _ _ _)) _).
  - vm_compute. reflexivity.
  - vm_compute. reflexivity.
Defined.

Lemma collect_data_success_rate_bounds_witness :
  (0 <= get_success_rate (sample_agent (F:=Q) 3 [] seven_of_ten) <= 1)%Q.
Proof.
  apply (proj2 (proj2 collect_data_success_rate_bounds)).
  unfold within_total. cbn. lia.
Defined.

Lemma collect_data_appends_witness :
  ∃ a' slept,
    collect_data (F:=float) sample_fromisoformat sample_sleep 10 knight_env 0
      (init (sample_config 3)) [] = Some (Ok (a', slept)) ∧
    config a' = config (init (sample_config 3)) ∧
    ∃ added, data_store a' = data_store (init (sample_config 3)) ++ added ∧
      Forall (complete (required_fields (data_quality
                          (config (init (sample_config 3)))))) added.
Proof.
  destruct (collect_data (F:=float) sample_fromisoformat sample_sleep 10 knight_env 0
              (init (sample_config 3)) []) as [[[a' slept]|e]|] eqn:Hrun.
  - exists a', slept. split; [reflexivity|].
    exact (collect_data_appends sample_fromisoformat sample_sleep knight_env 10 0
             (init (sample_config 3)) a' [] slept Hrun).
  - vm_compute in Hrun. discriminate.
  - vm_compute in Hrun. discriminate.
Defined.

Lemma collect_data_completeness_witness :
  ∃ a' slept,
    collect_data (F:=float) sample_fromisoformat sample_sleep 10 knight_env 0
      (init (sample_config 3)) [] = Some (Ok (a', slept)) ∧
    Forall (complete ["name"; "elixir_cost"]%string) (data_store a') ∧
    check_completeness a' =
      match data_store a' with
      | [] => 0%float
      | _ :: _ => let n := Z.of_nat (length (data_store a')) in truediv n n
      end.
Proof.
  destruct (collect_data (F:=float) sample_fromisoformat sample_sleep 10 knight_env 0
              (init (sample_config 3)) []) as [[[a' slept]|e]|] eqn:Hrun.
  - exists a', slept. split; [reflexivity|].
    exact (proj1 collect_data_completeness float binary64 sample_fromisoformat sample_sleep
             (sample_config 3) knight_env 10%nat a' slept Hrun).
  - vm_compute in Hrun. discriminate.
  - vm_compute in Hrun. discriminate.
Defined.

Lemma process_data_result_witness :
  (∃ processed,
     process_data (F:=float) (λ _, "2024-01-01T01:00:00"%string)
       {[ "items"%string := VList [VDict knight; VDict mirror] ]}
     = Ok (Some processed) ∧
     length processed = 2%nat) ∧
  process_data (F:=float) (λ _, "2024-01-01T01:00:00"%string)
    {[ "items"%string := VList [VDict knight; VInt 1] ]}
  = Raise AttributeError.
Proof.
  assert (({[ "items"%string := VList [VDict knight; VDict mirror] ]}
             : gmap string (pyval float)) !! "items"%string
          = Some (VList [VDict knight; VDict mirror])) as Hgood
    by (vm_compute; reflexivity).
  assert (({[ "items"%string := VList [VDict knight; VInt 1] ]}
             : gmap string (pyval float)) !! "items"%string
          = Some (VList [VDict knight; VInt 1])) as Hbad
    by (vm_compute; reflexivity).
  split.
  - destruct (proj1 (process_data_result (λ _, "2024-01-01T01:00:00"%string)
                       _ _ Hgood) eq_refl)
      as (processed & Hp & Hlen & _).
    exists processed. split; [exact Hp|exact Hlen].
  - exact (proj2 (process_data_result (λ _, "2024-01-01T01:00:00"%string)
                    _ _ Hbad) eq_refl).
Defined.

Lemma iteration_raises_witness :
  iteration (F:=float) sample_fromisoformat sample_sleep
    (sample_world (Responded 200 (Some (cards [VInt 1]))))
    (init (sample_config 3))
  = Raise AttributeError ∧
  iteration (F:=float) sample_fromisoformat sample_sleep
    (sample_world (Responded 200 None))
    (init (negative_delay_config 3))
  = Raise ValueError.
Proof.
  split.
  - apply (iteration_raises sample_fromisoformat sample_sleep
             (sample_world (Responded 200 (Some (cards [VInt 1]))))
             (init (sample_config (F:=float) 3)) AttributeError).
    left. split; reflexivity.
  - apply (iteration_raises sample_fromisoformat sample_sleep
             (sample_world (Responded 200 None))
             (init (negative_delay_config (F:=float) 3)) ValueError).
    right. split; [reflexivity|]. vm_compute. reflexivity.
Defined.


(** With a negative top-level [base_delay] the loop is ended by the
    [ValueError] of the first [time.sleep], on responses that are all well
    formed. *)
Example collect_data_stopped_by_sleep :
  collect_data (F:=float) sample_fromisoformat sample_sleep 10
    (λ _, sample_world (Responded 200 None)) 0
    (init (negative_delay_config 3)) []
  = Some (Raise ValueError).
Proof. vm_compute. reflexivity. Qed.

(** After one failure out of one the next iteration doubles the
    multiplier and moves to the fallback endpoint. *)
Lemma iteration_only_backs_off_witness :
  ∃ a' d,
    iteration (F:=float) sample_fromisoformat sample_sleep
      (sample_world (Failed ConnectionError)) (sample_agent 3 [] one_failed)
    = Ok (a', d) ∧
    delay_multiplier a' = (1 * 2)%float ∧
    current_api a' = "https://proxy.royaleapi.dev/v1"%string.
Proof.
  destruct (iteration (F:=float) sample_fromisoformat sample_sleep
              (sample_world (Failed ConnectionError))
              (sample_agent 3 [] one_failed)) as [[a' d]|e] eqn:Hit.
  - exists a', d. split; [reflexivity|].
    exact (iteration_only_backs_off sample_fromisoformat sample_sleep _ _ _ _ Hit).
  - vm_compute in Hit. discriminate.
Defined.

Lemma collect_data_multiplier_witness :
  ∃ a' slept,
    collect_data (F:=float) sample_fromisoformat sample_sleep 10 failing_env 0
      (init (sample_config 3)) [] = Some (Ok (a', slept)) ∧
    ∃ k, (length (@nil float) + k ≤ length slept)%nat ∧
      delay_multiplier a'
      = Nat.iter k (λ x, x * 2)%float (delay_multiplier (init (sample_config 3))).
Proof.
  destruct (collect_data (F:=float) sample_fromisoformat sample_sleep 10 failing_env 0
              (init (sample_config 3)) []) as [[[a' slept]|e]|] eqn:Hrun.
  - exists a', slept. split; [reflexivity|].
    exact (collect_data_multiplier sample_fromisoformat sample_sleep failing_env 10 0
             (init (sample_config 3)) a' [] slept Hrun).
  - vm_compute in Hrun. discriminate.
  - vm_compute in Hrun. discriminate.
Defined.

Lemma validate_data_iff_witness :
  validate_data (init (sample_config (F:=float) 3)) (Some [knight_record]) = true.
Proof.
  apply (proj1 (validate_data_iff (init (sample_config (F:=float) 3))
                  (Some [knight_record]))).
  exists [knight_record]. split; [reflexivity|]. split; [discriminate|].
  apply Forall_cons. split; [apply knight_record_complete|apply Forall_nil_2].
Defined.

Lemma current_api_first_fallback_only_witness :
  current_api
    (adjust_run [one_successful; one_failed]
       (set_current_api (init (sample_config (F:=float) 3))
          "https://proxy.royaleapi.dev/v1"))
  = "https://proxy.royaleapi.dev/v1"%string.
Proof.
  exact (proj2 (proj2 (current_api_first_fallback_only
                         [one_successful; one_failed]
                         (set_current_api (init (sample_config (F:=float) 3))
                            "https://proxy.royaleapi.dev/v1"))) eq_refl).
Defined.

Lemma respectful_delay_range_witness :
  (1 * 1 * (1 # 2) <= respectful_delay (init (sample_config (F:=Q) 3)) 1
   <= 1 * 1 * (3 # 2))%Q.
Proof.
  assert (0 <= default 1 (base_delay (config (init (sample_config (F:=Q) 3))))
               * delay_multiplier (init (sample_config (F:=Q) 3)))%Q as Hpos
    by (vm_compute; discriminate).
  assert (1 # 2 <= 1 <= 3 # 2)%Q as Hjitter by lra.
  exact (respectful_delay_range (init (sample_config (F:=Q) 3)) 1%Q Hpos Hjitter).
Defined.

Lemma collect_data_ignores_quality_witness :
  collect_data (F:=float) sample_fromisoformat sample_sleep 10 knight_env 0
    (init (sample_config 3)) []
  = collect_data (λ _, None) sample_sleep 10 later_env 0 (init (sample_config 3)) [].
Proof.
  apply collect_data_ignores_quality. intros j. repeat split.
Defined.

Lemma sample_file_sections {F : Type} `{PyFloat F} (section : string) (v : pyval F) :
  section ∈ default_sections → sample_file !! section = Some v →
  is_object v = true.
Proof.
  unfold default_sections. intros Hsection.
  repeat (apply elem_of_cons in Hsection as [->|Hsection]);
    [| | |by apply elem_of_nil in Hsection];
    intros Hv; vm_compute in Hv; try discriminate;
    injection Hv as <-; reflexivity.
Defined.

(** The file's limit is kept, the missing timeout is filled in, and a
    setting without a default stays absent. *)
Lemma load_config_merges_defaults_witness :
  ∃ config',
    load_config (F:=float) (VDict sample_file) = Ok config' ∧
    setting config' "agent_settings" "max_requests" = Some (VInt 5) ∧
    setting config' "agent_settings" "timeout" = Some (VInt 10) ∧
    setting config' "data_quality" "max_age_hours" = None ∧
    load_config (VDict config') = Ok config'.
Proof.
  destruct (load_config_merges_defaults (F:=float) sample_file sample_file_sections)
    as (config' & Hload & Hsetting & _ & _ & Hagain).
  exists config'. split; [exact Hload|].
  split; [|split; [|split; [|exact Hagain]]]; rewrite Hsetting;
    vm_compute; reflexivity.
Defined.

Lemma load_config_type_error_witness :
  load_config (F:=float) (VDict null_section_file) = Raise TypeError.
Proof.
  apply (proj1 (proj2 load_config_type_error) null_section_file
               "api_settings"%string VNone).
  - unfold default_sections. apply list_elem_of_further, list_elem_of_here.
  - vm_compute. reflexivity.
  - reflexivity.
Defined.

Lemma load_api_credentials_sources_witness :
  _load_api_credentials (F:=float) token_file (Some "from-dotenv"%string)
  = Some "eyJ0eXAiOiJKV1Qi"%string.
Proof.
  apply (proj1 (load_api_credentials_sources (F:=float) token_file
                  (Some "from-dotenv"%string))).
  - vm_compute. reflexivity.
  - reflexivity.
Defined.

Lemma generate_data_schema_docs_fields_witness :
  schema_fields (generate_data_schema_docs (init (sample_config (F:=float) 3)))
    "raw_data_schema"
  = Raise KeyError.
Proof.
  apply (proj1 (generate_data_schema_docs_fields
                  (init (sample_config (F:=float) 3)))).
  reflexivity.
Defined.

Lemma test_api_connectivity_agrees_witness :
  test_api_connectivity (F:=float) true (Some "eyJ0eXAiOiJKV1Qi"%string)
    (Responded 200 (Some (cards [VDict knight]))) = true.
Proof.
  assert ("eyJ0eXAiOiJKV1Qi"%string ≠ ""%string) as Hkey by discriminate.
  apply (proj1 (test_api_connectivity_agrees "eyJ0eXAiOiJKV1Qi"
                  (Responded 200 (Some (cards [VDict knight])))
                  (init (sample_config (F:=float) 3)) Hkey)
               {[ "items"%string := VList [VDict knight] ]}).
  vm_compute. reflexivity.
Defined.

End OnMoreSamples.
